(** * EAFC player scraper: pagination, flattening and CSV output

    A shallow embedding of [scraper/scraper.py] (class [EAFCPlayerScraper])
    and the properties of its three stages:

    - [fetch_page] / [fetch_all_players]: the offset/limit pagination loop;
    - [extract_player_data]: flattening of one decoded JSON record;
    - [save_to_csv]: the union-of-keys header and the [csv.DictWriter] rows;
    - [run] / [main]: the two stages in sequence, on a fresh scraper.

    Decoded JSON is modelled by [pyval]; Python dictionaries are finite maps
    ([gmap string pyval]); exceptions are an explicit [result]; the effects
    of the scraper (prints, HTTP requests, sleeps, the rows accumulated in
    [self.players_data], files written) are threaded through a state and
    error monad [M]. *)

From Stdlib Require Import ZArith String Ascii.
From Stdlib Require OrderedTypeEx.
From stdpp Require Import gmap strings list fin_maps sorting.


(** ** Python values and the operations the scraper applies to them *)

Module Py.

(** What [response.json()] can return.  A float is carried as its IEEE-754
    binary64 bit pattern: the scraper only ever tests it for truth and copies
    it around.  A [str] is carried as the bytes of its UTF-8 encoding; a
    lone surrogate, which [json.loads] yields for an escape such as
    [\ud800], is carried as the three bytes the [surrogatepass] handler
    gives it (0xED, then a byte in 0xA0..0xBF, then a continuation byte).
    Byte order is then code point order.  The values are those
    [json.loads] yields: an [int] is within the digit limit of the
    conversion between [int] and [str], and the nesting is within the
    recursion limit, so that [str()] of a value does not raise. *)
#[warnings="-register-all"]
Inductive pyval : Type :=
  | PyNone
  | PyBool (b : bool)
  | PyInt (n : Z)
  | PyFloat (bits : Z)
  | PyStr (s : string)
  | PyList (l : list pyval)
  | PyDict (d : gmap string pyval).

Inductive exn : Type :=
  | AttributeError
  | TypeError
  | ValueError
  | UnicodeDecodeError
  | UnicodeEncodeError
  | RecursionError.

Inductive result (A : Type) : Type :=
  | Ok (a : A)
  | Raise (e : exn).
Arguments Ok {A} a.
Arguments Raise {A} e.

#[global] Instance result_ret : MRet result := λ A a, Ok a.
#[global] Instance result_bind : MBind result := λ A B f r,
  match r with
  | Ok a => f a
  | Raise e => Raise e
  end.
#[global] Instance result_fmap : FMap result := λ A B f r,
  match r with
  | Ok a => Ok (f a)
  | Raise e => Raise e
  end.

(** [bool(v)]: [None], [False], zero, the empty string and the empty
    containers are falsy.  Both [0.0] and [-0.0] are zero. *)
Definition truthy (v : pyval) : bool :=
  match v with
  | PyNone => false
  | PyBool b => b
  | PyInt n => negb (n =? 0)%Z
  | PyFloat bits => negb (Z.land bits (2 ^ 63 - 1) =? 0)%Z
  | PyStr s => negb (String.eqb s "")
  | PyList l => negb (length l =? 0)%nat
  | PyDict d => negb (size d =? 0)%nat
  end.

(** [a or b] *)
Definition py_or (a b : pyval) : pyval :=
  if truthy a then a else b.

(** [o.get(key, default)]: only dictionaries have a [get] attribute. *)
Definition py_get (o : pyval) (key : string) (dflt : pyval) : result pyval :=
  match o with
  | PyDict d => Ok (default dflt (d !! key))
  | _ => Raise AttributeError
  end.

(** [o.items()] *)
Definition py_items (o : pyval) : result (gmap string pyval) :=
  match o with
  | PyDict d => Ok d
  | _ => Raise AttributeError
  end.

(** The elements [for x in o] ranges over: the elements of a list, the keys
    of a dictionary, the characters of a string (each a one-character
    string); anything else JSON can produce is not iterable. *)
Definition py_iter (o : pyval) : result (list pyval) :=
  match o with
  | PyList l => Ok l
  | PyDict d => Ok (PyStr <$> (map_to_list d).*1)
  | PyStr s => Ok ((λ c, PyStr (String c EmptyString)) <$> list_ascii_of_string s)
  | _ => Raise TypeError
  end.

(** [len(o)] *)
Definition py_len (o : pyval) : result nat :=
  match o with
  | PyList l => Ok (length l)
  | PyDict d => Ok (size d)
  | PyStr s => Ok (String.length s)
  | _ => Raise TypeError
  end.

(** [sep.join(items)]: every item has to be a [str]. *)
Definition py_str_of (v : pyval) : result string :=
  match v with
  | PyStr s => Ok s
  | _ => Raise TypeError
  end.

Definition py_join (sep : string) (items : list pyval) : result string :=
  String.concat sep <$> mapM py_str_of items.

(** [s.encode('utf-8')] succeeds: [s] holds no surrogate, that is, no byte
    0xED followed by a byte in 0xA0..0xBF. *)
Fixpoint utf8_encodable (s : string) : bool :=
  match s with
  | EmptyString => true
  | String c s' =>
      match s' with
      | String c' _ =>
          negb ((nat_of_ascii c =? 237)%nat
                && (160 <=? nat_of_ascii c')%nat && (nat_of_ascii c' <=? 191)%nat)
      | EmptyString => true
      end
      && utf8_encodable s'
  end.

(** [s.split(sep)] for a separator of one character. *)
Fixpoint py_split (sep : ascii) (s : string) : list string :=
  match s with
  | EmptyString => [EmptyString]
  | String c s' =>
      if Ascii.eqb c sep then EmptyString :: py_split sep s'
      else match py_split sep s' with
           | seg :: rest => String c seg :: rest
           | [] => [String c EmptyString]
           end
  end.

(** [str(Path(filename))] in the POSIX flavour of [pathlib]: empty and [.]
    components are dropped, [..] is kept; one leading slash is the root, two
    exactly are kept as they are, three or more are one; the path without
    root and components is [.]. *)
Definition py_path (filename : string) : string :=
  let root :=
    match filename with
    | String "/" (String "/" (String "/" _)) => "/"
    | String "/" (String "/" _) => "//"
    | String "/" _ => "/"
    | _ => ""
    end in
  let parts :=
    List.filter (λ p, negb (String.eqb p "") && negb (String.eqb p "."))
      (py_split "/" filename) in
  if String.eqb root "" && (length parts =? 0)%nat then "."
  else root +:+ String.concat "/" parts.

End Py.
Import Py.

(** ** The flattener: [extract_player_data] *)

Module Flatten.

(** [[elem.get(key, '') for elem in seq if elem]] *)
Definition comprehension (seq : pyval) (key : string) : result (list pyval) :=
  elems ← py_iter seq;
  mapM (λ elem, py_get elem key (PyStr "")) (List.filter truthy elems).

(** ['|'.join(labels) if labels else ''] *)
Definition joined (labels : list pyval) : result pyval :=
  if truthy (PyList labels) then PyStr <$> py_join "|" labels
  else Ok (PyStr "").

(** One pass of the body of [for stat_name, stat_data in stats.items()]. *)
Definition add_stat (stat_name : string) (stat_data : pyval)
    (extracted : gmap string pyval) : gmap string pyval :=
  match stat_data with
  | PyDict sd =>
      match sd !! "value" with
      | Some v => <["stat_" +:+ stat_name := v]> extracted
      | None => extracted
      end
  | _ => extracted
  end.

Definition extract_player_data (player : pyval) : result (gmap string pyval) :=
  v_id ← py_get player "id" PyNone;
  v_overall ← py_get player "overallRating" PyNone;
  v_first ← py_get player "firstName" PyNone;
  v_last ← py_get player "lastName" PyNone;
  v_common ← py_get player "commonName" PyNone;
  v_skill ← py_get player "skillMoves" PyNone;
  v_weak ← py_get player "weakFootAbility" PyNone;
  v_foot ← py_get player "preferredFoot" PyNone;
  v_league ← py_get player "leagueName" PyNone;
  v_avatar ← py_get player "avatarUrl" PyNone;
  v_shield ← py_get player "shieldUrl" PyNone;
  let extracted : gmap string pyval :=
    <["shield_url" := v_shield]> (<["avatar_url" := v_avatar]>
    (<["league_name" := v_league]> (<["preferred_foot" := v_foot]>
    (<["weak_foot" := v_weak]> (<["skill_moves" := v_skill]>
    (<["common_name" := v_common]> (<["last_name" := v_last]>
    (<["first_name" := v_first]> (<["overall_rating" := v_overall]>
    (<["id" := v_id]> ∅)))))))))) in
  (* alternate positions *)
  alt_positions ← (λ v, py_or v (PyList [])) <$> py_get player "alternatePositions" PyNone;
  alt_pos_labels ← comprehension alt_positions "shortLabel";
  alt_joined ← joined alt_pos_labels;
  let extracted := <["alternate_positions" := alt_joined]> extracted in
  (* player abilities *)
  abilities ← (λ v, py_or v (PyList [])) <$> py_get player "playerAbilities" PyNone;
  ability_labels ← comprehension abilities "label";
  ability_images ← comprehension abilities "imageUrl";
  labels_joined ← joined ability_labels;
  let extracted := <["player_abilities_labels" := labels_joined]> extracted in
  images_joined ← joined ability_images;
  let extracted := <["player_abilities_images" := images_joined]> extracted in
  (* nationality *)
  nationality ← (λ v, py_or v (PyDict ∅)) <$> py_get player "nationality" PyNone;
  nat_label ← py_get nationality "label" (PyStr "");
  let extracted := <["nationality_label" := nat_label]> extracted in
  nat_image ← py_get nationality "imageUrl" (PyStr "");
  let extracted := <["nationality_image_url" := nat_image]> extracted in
  (* team *)
  team ← (λ v, py_or v (PyDict ∅)) <$> py_get player "team" PyNone;
  team_label ← py_get team "label" (PyStr "");
  let extracted := <["team_label" := team_label]> extracted in
  team_image ← py_get team "imageUrl" (PyStr "");
  let extracted := <["team_image_url" := team_image]> extracted in
  (* position *)
  position ← (λ v, py_or v (PyDict ∅)) <$> py_get player "position" PyNone;
  pos_label ← py_get position "shortLabel" (PyStr "");
  let extracted := <["position_short_label" := pos_label]> extracted in
  (* stats *)
  stats ← (λ v, py_or v (PyDict ∅)) <$> py_get player "stats" PyNone;
  stat_items ← py_items stats;
  Ok (map_fold add_stat extracted stat_items).

End Flatten.
Import Flatten.

(** ** The scraper object and its effects *)

Module Scraper.

(** What the upstream answers to one GET: the transport fails
    ([client.get] raises an [httpx.HTTPError]), or a response arrives with a
    status code and a body.  On the body [response.json()] returns a value
    ([Response] with [Some]), raises [json.JSONDecodeError] ([Response] with
    [None]), or raises an exception of another class ([Undecodable]):
    [UnicodeDecodeError] for bytes that are not UTF-8, [ValueError] for an
    integer literal over the digit limit, [RecursionError] for nesting that
    is too deep. *)
Inductive http_outcome : Type :=
  | TransportError
  | Response (status : nat) (body : option pyval)
  | Undecodable (status : nat) (e : exn).

(** The lines the scraper prints; the text of a caught exception is left
    out. *)
Inductive message : Type :=
  | HttpErrorAt (offset : nat)
  | JsonErrorAt (offset : nat)
  | StartingFetch
  | FetchingPage (offset : nat)
  | FailedFetch (offset : nat)
  | NoMoreItems
  | Fetched (count total : nat)
  | ReachedLastPage
  | TotalScraped (count : nat)
  | NoDataToSave
  | DataSaved (path : string)
  | TotalColumns (count : nat)
  | TotalRows (count : nat).

(** [players_data] is the attribute of the scraper object; the other fields
    record what the run did to the outside: lines printed, requests issued
    as (offset, limit), pauses taken, and what has been written, under the
    path each file was opened with: a list of records of fields as handed to
    [csv.writer].  Opening a file for writing and printing a line are taken
    to succeed. *)
Record state : Type := {
  players_data : list (gmap string pyval);
  stdout : list message;
  requests : list (nat * nat);
  sleeps : nat;
  files : gmap string (list (list pyval))
}.

(** [EAFCPlayerScraper()], with [fs] written before. *)
Definition init (fs : gmap string (list (list pyval))) : state :=
  {| players_data := []; stdout := []; requests := []; sleeps := 0; files := fs |}.

(** Computations that read and update the state and may raise. *)
Definition M (A : Type) : Type := state → result A * state.

#[global] Instance M_ret : MRet M := λ A a st, (Ok a, st).
#[global] Instance M_bind : MBind M := λ A B f m st,
  match m st with
  | (Ok a, st') => f a st'
  | (Raise e, st') => (Raise e, st')
  end.

Definition lift {A} (r : result A) : M A := λ st, (r, st).

Definition print (m : message) : M unit := λ st,
  (Ok (), {| players_data := players_data st; stdout := stdout st ++ [m];
             requests := requests st; sleeps := sleeps st; files := files st |}).

Definition append_player (r : gmap string pyval) : M unit := λ st,
  (Ok (), {| players_data := players_data st ++ [r]; stdout := stdout st;
             requests := requests st; sleeps := sleeps st; files := files st |}).

Definition sleep : M unit := λ st,
  (Ok (), {| players_data := players_data st; stdout := stdout st;
             requests := requests st; sleeps := S (sleeps st); files := files st |}).

Definition get_players : M (list (gmap string pyval)) := λ st, (Ok (players_data st), st).

Definition with_file (filename : string)
    (f : option (list (list pyval)) → option (list (list pyval))) : M unit := λ st,
  (Ok (), {| players_data := players_data st; stdout := stdout st;
             requests := requests st; sleeps := sleeps st;
             files := partial_alter f filename (files st) |}).

(** [for x in xs: body(x)] *)
Fixpoint for_each {A} (xs : list A) (body : A → M unit) : M unit :=
  match xs with
  | [] => mret ()
  | x :: xs' => body x ;; for_each xs' body
  end.

Section fetcher.
(** The upstream service: the answer to a GET at an offset and limit. *)
Variable client : nat → nat → http_outcome.

Definition http_get (offset limit : nat) : M http_outcome := λ st,
  (Ok (client offset limit),
   {| players_data := players_data st; stdout := stdout st;
      requests := requests st ++ [(offset, limit)]; sleeps := sleeps st;
      files := files st |}).

(** [response.raise_for_status()] passes 2xx only. *)
Definition is_success (status : nat) : bool :=
  (200 <=? status)%nat && (status <=? 299)%nat.

Definition fetch_page (offset limit : nat) : M pyval :=
  response ← http_get offset limit;
  match response with
  | TransportError => print (HttpErrorAt offset) ;; mret PyNone
  | Response status body =>
      if is_success status then
        match body with
        | Some data => mret data
        | None => print (JsonErrorAt offset) ;; mret PyNone
        end
      else print (HttpErrorAt offset) ;; mret PyNone
  | Undecodable status e =>
      (* only httpx.HTTPError and json.JSONDecodeError are caught *)
      if is_success status then lift (Raise e)
      else print (HttpErrorAt offset) ;; mret PyNone
  end.

(** How one pass through the body of [while True:] ends. *)
Inductive ctl : Type :=
  | Break
  | Continue (offset total_fetched : nat).

Definition loop_body (limit offset total_fetched : nat) : M ctl :=
  print (FetchingPage offset) ;;
  data ← fetch_page offset limit;
  if negb (truthy data) then
    print (FailedFetch offset) ;; mret Break
  else
    items ← lift (py_get data "items" (PyList []));
    if negb (truthy items) then
      print NoMoreItems ;; mret Break
    else
      players ← lift (py_iter items);
      for_each players (λ player,
        player_data ← lift (extract_player_data player);
        append_player player_data) ;;
      count ← lift (py_len items);
      let total_fetched := total_fetched + count in
      print (Fetched count total_fetched) ;;
      if (count <? limit)%nat then
        print ReachedLastPage ;; mret Break
      else
        let offset := offset + limit in
        sleep ;; mret (Continue offset total_fetched).

(** [while True:] run for at most [fuel] passes; [None] when the fuel is
    used up before a [break] or an exception. *)
Fixpoint while_true (fuel : nat) (body : nat → nat → M ctl)
    (offset total_fetched : nat) (st : state) : option (result unit * state) :=
  match fuel with
  | 0 => None
  | S fuel' =>
      match body offset total_fetched st with
      | (Ok Break, st') => Some (Ok (), st')
      | (Ok (Continue offset' total'), st') => while_true fuel' body offset' total' st'
      | (Raise e, st') => Some (Raise e, st')
      end
  end.

Definition fetch_all_players (fuel : nat) (st : state) : option (result unit * state) :=
  let offset := 0 in
  let limit := 100 in
  let total_fetched := 0 in
  match print StartingFetch st with
  | (_, st) =>
      match while_true fuel (loop_body limit) offset total_fetched st with
      | Some (Ok _, st') => Some (print (TotalScraped (length (players_data st'))) st')
      | Some (Raise e, st') => Some (Raise e, st')
      | None => None
      end
  end.
End fetcher.

(** ** The writer: [save_to_csv] *)

(** The order [sorted] puts strings in: code point order, which for UTF-8
    text is the byte order of [String.leb]. *)
Definition str_le (a b : string) : Prop := String.leb a b = true.
Definition str_lt (a b : string) : Prop := String.ltb a b = true.

#[global] Instance str_le_dec a b : Decision (str_le a b).
Proof. unfold str_le. apply _. Defined.

Definition py_sorted (l : list string) : list string := merge_sort str_le l.

(** [csv.DictWriter._dict_to_list] with the defaults [restval=''] and
    [extrasaction='raise']. *)
Definition dict_to_list (fieldnames : list string) (rowdict : gmap string pyval)
    : result (list pyval) :=
  let wrong_fields : gset string := dom rowdict ∖ list_to_set fieldnames in
  if decide (wrong_fields = ∅) then
    Ok ((λ key, default (PyStr "") (rowdict !! key)) <$> fieldnames)
  else Raise ValueError.

(** The text [csv.writer] makes of a field can be encoded by a file opened
    with [encoding='utf-8']: a [str] is written as it is and has to be
    encodable; [None] is written as the empty string and every other value
    through [str()], which escapes what it cannot print. *)
Definition encodable (v : pyval) : bool :=
  match v with
  | PyStr s => utf8_encodable s
  | _ => true
  end.

(** [writer.writerow(record)]: the line is encoded when it is written, so a
    record that cannot be encoded raises and leaves the file as it was. *)
Definition writerow (path : string) (record : list pyval) : M unit :=
  if forallb encodable record then
    with_file path (λ content, Some (default [] content ++ [record]))
  else lift (Raise UnicodeEncodeError).

Definition save_to_csv (filename : string) : M unit :=
  rows ← get_players;
  if negb (negb (length rows =? 0)%nat) then
    print NoDataToSave
  else
    let all_fields : gset string := foldl (λ acc player, acc ∪ dom player) ∅ rows in
    let fieldnames := py_sorted (elements all_fields) in
    let output_path := py_path filename in
    (* open(output_path, 'w') creates or truncates the file *)
    with_file output_path (λ _, Some []) ;;
    (* writeheader *)
    writerow output_path (PyStr <$> fieldnames) ;;
    (* writerows *)
    for_each rows (λ rowdict,
      record ← lift (dict_to_list fieldnames rowdict);
      writerow output_path record) ;;
    print (DataSaved output_path) ;;
    print (TotalColumns (length fieldnames)) ;;
    print (TotalRows (length rows)).

(** [run]: fetch everything, then save under the default file name. *)
Definition run (client : nat → nat → http_outcome) (fuel : nat) (st : state)
    : option (result unit * state) :=
  match fetch_all_players client fuel st with
  | Some (Ok _, st') => Some (save_to_csv "eafc_players.csv" st')
  | Some (Raise e, st') => Some (Raise e, st')
  | None => None
  end.

(** [main]: a fresh scraper is run, with [fs] written before. *)
Definition main (client : nat → nat → http_outcome) (fuel : nat)
    (fs : gmap string (list (list pyval))) : option (result unit * state) :=
  run client fuel (init fs).

End Scraper.
Import Scraper.

(** ** Vocabulary for the flattener's properties *)

Module Shapes.

(** [player.get(key)] on a record that is a dictionary. *)
Definition field (d : gmap string pyval) (key : string) : pyval :=
  default PyNone (d !! key).

(** The shapes the flattener copes with.  An element of a list field is
    falsy, or a dictionary whose looked-up attributes, where present, are
    strings; a list field is falsy or a list of such elements; an object
    field is falsy or a dictionary. *)
Definition is_str (v : pyval) : bool :=
  match v with PyStr _ => true | _ => false end.

Definition elem_ok (keys : list string) (elem : pyval) : bool :=
  negb (truthy elem) ||
  match elem with
  | PyDict m => forallb (λ k, is_str (default (PyStr "") (m !! k))) keys
  | _ => false
  end.

Definition list_field_ok (keys : list string) (v : pyval) : bool :=
  negb (truthy v) ||
  match v with
  | PyList l => forallb (elem_ok keys) l
  | _ => false
  end.

Definition object_field_ok (v : pyval) : bool :=
  negb (truthy v) || match v with PyDict _ => true | _ => false end.

Definition well_shaped (d : gmap string pyval) : bool :=
  list_field_ok ["shortLabel"] (field d "alternatePositions")
  && list_field_ok ["label"; "imageUrl"] (field d "playerAbilities")
  && object_field_ok (field d "nationality")
  && object_field_ok (field d "team")
  && object_field_ok (field d "position")
  && object_field_ok (field d "stats").

(** What the guarded lookups yield on such shapes. *)
Definition elems_of (v : pyval) : list pyval :=
  match py_or v (PyList []) with PyList l => l | _ => [] end.

Definition sub_of (v : pyval) : gmap string pyval :=
  match py_or v (PyDict ∅) with PyDict m => m | _ => ∅ end.

Definition label_str (key : string) (elem : pyval) : string :=
  match elem with
  | PyDict m => match default (PyStr "") (m !! key) with PyStr s => s | _ => "" end
  | _ => ""
  end.

Definition labels_of (key : string) (v : pyval) : list string :=
  label_str key <$> List.filter truthy (elems_of v).

Definition stat_value (stat_data : pyval) : option pyval :=
  match stat_data with PyDict sd => sd !! "value" | _ => None end.

(** The nineteen columns every flattened row has. *)
Definition scalar_columns : list (string * string) :=
  [("id", "id"); ("overall_rating", "overallRating"); ("first_name", "firstName");
   ("last_name", "lastName"); ("common_name", "commonName");
   ("skill_moves", "skillMoves"); ("weak_foot", "weakFootAbility");
   ("preferred_foot", "preferredFoot"); ("league_name", "leagueName");
   ("avatar_url", "avatarUrl"); ("shield_url", "shieldUrl")].

Definition list_columns : list (string * (string * string)) :=
  [("alternate_positions", ("alternatePositions", "shortLabel"));
   ("player_abilities_labels", ("playerAbilities", "label"));
   ("player_abilities_images", ("playerAbilities", "imageUrl"))].

Definition object_columns : list (string * (string * string)) :=
  [("nationality_label", ("nationality", "label"));
   ("nationality_image_url", ("nationality", "imageUrl"));
   ("team_label", ("team", "label"));
   ("team_image_url", ("team", "imageUrl"));
   ("position_short_label", ("position", "shortLabel"))].

Definition static_columns : list string :=
  scalar_columns.*1 ++ list_columns.*1 ++ object_columns.*1.

(** The row before the stats are added, in closed form. *)
Definition base_row (d : gmap string pyval) : gmap string pyval :=
  list_to_map
    (((λ c, (c.1, field d c.2)) <$> scalar_columns)
     ++ ((λ c, (c.1, PyStr (String.concat "|" (labels_of c.2.2 (field d c.2.1))))) <$> list_columns)
     ++ ((λ c, (c.1, default (PyStr "") (sub_of (field d c.2.1) !! c.2.2))) <$> object_columns)).

Definition flat (d : gmap string pyval) : gmap string pyval :=
  map_fold add_stat (base_row d) (sub_of (field d "stats")).

(** The stats loop run over the entries in the order [items()] yields
    them, the order of insertion. *)
Definition add_stats_in_order (items : list (string * pyval))
    (extracted : gmap string pyval) : gmap string pyval :=
  foldl (λ acc item, add_stat item.1 item.2 acc) extracted items.

(** The computation returned rather than raised. *)
Definition is_ok {A} (r : result A) : bool :=
  match r with Ok _ => true | Raise _ => false end.

(** The keys of a record the flattener reads. *)
Definition known_keys : list string :=
  scalar_columns.*2
  ++ ["alternatePositions"; "playerAbilities"; "nationality"; "team"; "position"; "stats"].

(** The values of a list field on which extracting the attribute [key] and
    joining it does not raise: falsy values; lists whose truthy elements are
    objects with a string (or nothing) under [key]; and objects all of whose
    keys are the empty string, since iterating an object yields its keys and
    the falsy ones are skipped. *)
Definition key_ok (key : string) (v : pyval) : bool :=
  negb (truthy v) ||
  match v with
  | PyList l => forallb (elem_ok [key]) l
  | PyDict m => forallb (λ k, negb (truthy (PyStr k))) (map_to_list m).*1
  | _ => false
  end.

(** The records on which the flattener returns. *)
Definition flattens (d : gmap string pyval) : bool :=
  key_ok "shortLabel" (field d "alternatePositions")
  && key_ok "label" (field d "playerAbilities")
  && key_ok "imageUrl" (field d "playerAbilities")
  && object_field_ok (field d "nationality")
  && object_field_ok (field d "team")
  && object_field_ok (field d "position")
  && object_field_ok (field d "stats").

(** An element of a list field that supplies the attribute [key] as the
    string [s]. *)
Definition supplies (key : string) (elem : pyval) (s : string) : Prop :=
  ∃ m, elem = PyDict m ∧ m !! key = Some (PyStr s).

(** The segments of a joined column: what [column.split('|')] returns. *)
Fixpoint segments (s : string) : list string :=
  match s with
  | EmptyString => [EmptyString]
  | String c s' =>
      if Ascii.eqb c "|" then EmptyString :: segments s'
      else match segments s' with
           | seg :: rest => String c seg :: rest
           | [] => [String c EmptyString]
           end
  end.

Fixpoint bar_free (s : string) : bool :=
  match s with
  | EmptyString => true
  | String c s' => negb (Ascii.eqb c "|") && bar_free s'
  end.

End Shapes.
Import Shapes.

(** ** Vocabulary for the fetcher's properties *)

Module Pages.

(** The fetch of a page failed: transport error, a status outside 2xx, or a
    body that is not JSON.  These are the failures [fetch_page] catches. *)
Definition fetch_failed (o : http_outcome) : bool :=
  match o with
  | TransportError => true
  | Response status body =>
      negb (is_success status) || match body with None => true | Some _ => false end
  | Undecodable status _ => negb (is_success status)
  end.

(** The exception [fetch_page] lets through, if any. *)
Definition escapes (o : http_outcome) : option exn :=
  match o with
  | Undecodable status e => if is_success status then Some e else None
  | _ => None
  end.

(** The decoded body of a fetch that did not fail. *)
Definition body_of (o : http_outcome) : option pyval :=
  match o with
  | Response status (Some data) => if is_success status then Some data else None
  | _ => None
  end.

(** The record list of a decoded page: [data.get('items', [])]. *)
Definition records_of (data : pyval) : option pyval :=
  match data with
  | PyDict d => Some (default (PyList []) (d !! "items"))
  | _ => None
  end.

Definition page_empty (o : http_outcome) : Prop :=
  ∃ data, body_of o = Some data
    ∧ (truthy data = false
       ∨ ∃ items, records_of data = Some items ∧ truthy items = false).

Definition page_short (limit : nat) (o : http_outcome) : Prop :=
  ∃ data l, body_of o = Some data ∧ records_of data = Some (PyList l)
    ∧ length l < limit.

Definition page_stops (limit : nat) (o : http_outcome) : Prop :=
  fetch_failed o = true ∨ page_empty o ∨ page_short limit o.

(** What [fetch_page] returns and prints for an answer of the upstream. *)
Definition decoded (o : http_outcome) : pyval :=
  default PyNone (body_of o).

Definition fetch_diagnostic (offset : nat) (o : http_outcome) : list message :=
  match o with
  | TransportError => [HttpErrorAt offset]
  | Response status body =>
      if is_success status then
        match body with Some _ => [] | None => [JsonErrorAt offset] end
      else [HttpErrorAt offset]
  | Undecodable status _ =>
      if is_success status then [] else [HttpErrorAt offset]
  end.

(** A page that answers 200 with the given records under [items]. *)
Definition page_of (records : list pyval) : http_outcome :=
  Response 200 (Some (PyDict {[ "items" := PyList records ]})).

(** The requests of the first [n] passes of a loop started at [offset]. *)
Definition requests_from (offset limit n : nat) : list (nat * nat) :=
  (λ i, (offset + i * limit, limit)) <$> seq 0 n.

(** The upstream answers the request at [offset] with a page whose records
    are [recs], and these flatten to [rows]. *)
Definition serves (client : nat → nat → http_outcome) (limit offset : nat)
    (recs : list pyval) (rows : list (gmap string pyval)) : Prop :=
  ∃ d, body_of (client offset limit) = Some (PyDict d)
    ∧ d !! "items" = Some (PyList recs)
    ∧ mapM extract_player_data recs = Ok rows.

End Pages.
Import Pages.

(** ** Vocabulary for the writer's properties *)

Module Csv.

(** The header [save_to_csv] computes for a list of rows. *)
Definition column_union (rows : list (gmap string pyval)) : gset string :=
  foldl (λ acc player, acc ∪ dom player) ∅ rows.

Definition header (rows : list (gmap string pyval)) : list string :=
  py_sorted (elements (column_union rows)).

(** The record of a row under a list of columns: the row's value where it
    has the column, the empty string where it has not. *)
Definition record_of (cols : list string) (row : gmap string pyval) : list pyval :=
  (λ key, default (PyStr "") (row !! key)) <$> cols.

(** The rows can be written to a file opened with [encoding='utf-8']: every
    column name and every value that is a string can be encoded. *)
Definition row_encodable (row : gmap string pyval) : bool :=
  forallb (λ kv, utf8_encodable kv.1 && encodable kv.2) (map_to_list row).

Definition rows_encodable (rows : list (gmap string pyval)) : bool :=
  forallb row_encodable rows.

(** The table [save_to_csv] writes for a non-empty list of rows. *)
Definition table (rows : list (gmap string pyval)) : list (list pyval) :=
  (PyStr <$> header rows) :: (record_of (header rows) <$> rows).

End Csv.
Import Csv.

(** ** Records used as concrete inputs *)

Module Samples.

Definition striker : pyval :=
  PyDict {[ "shortLabel" := PyStr "ST"; "label" := PyStr "Striker";
            "imageUrl" := PyStr "https://img/st.png" ]}.

Definition finesse : pyval :=
  PyDict {[ "label" := PyStr "Finesse Shot"; "imageUrl" := PyStr "https://img/fs.png" ]}.

Definition haaland : gmap string pyval :=
  {[ "id" := PyInt 239085; "overallRating" := PyInt 91;
     "firstName" := PyStr "Erling"; "lastName" := PyStr "Haaland";
     "commonName" := PyNone;
     "alternatePositions" := PyList [striker; PyNone; PyDict {[ "shortLabel" := PyStr "CF" ]}];
     "playerAbilities" := PyList [finesse];
     "nationality" := PyDict {[ "label" := PyStr "Norway"; "imageUrl" := PyStr "https://img/no.png" ]};
     "team" := PyNone;
     "position" := striker;
     "stats" := PyDict {[ "pac" := PyDict {[ "value" := PyInt 88; "diff" := PyInt 0 ]};
                          "sho" := PyDict {[ "diff" := PyInt 1 ]};
                          "pas" := PyInt 66 ]} ]}.

(** Two alternate positions and an empty list of abilities. *)
Definition winger : gmap string pyval :=
  {[ "id" := PyInt 7;
     "alternatePositions" := PyList [PyDict {[ "shortLabel" := PyStr "LW" ]};
                                     PyDict {[ "shortLabel" := PyStr "RW" ]}];
     "playerAbilities" := PyList [] ]}.

(** The same player with a field the flattener does not know. *)
Definition haaland_born : gmap string pyval :=
  <["birthdate" := PyStr "2000-07-21"]> haaland.

(** A nationality given as a bare string, and alternate positions given as
    an object whose only key is the empty string. *)
Definition bare_nationality : gmap string pyval := {[ "nationality" := PyStr "Norway" ]}.
Definition keyed_positions : gmap string pyval :=
  {[ "alternatePositions" := PyDict {[ "" := PyInt 1 ]} ]}.

(** Stat entries without a [value]: one a mapping, one a bare number. *)
Definition bare_stats : gmap string pyval :=
  {[ "sho" := PyDict {[ "diff" := PyInt 1 ]}; "pas" := PyInt 66 ]}.

Definition stats_only : gmap string pyval :=
  {[ "stats" := PyDict bare_stats ]}.

(** An upstream with two full pages and a last page of 37 records, each
    record an empty object; past that it is unreachable. *)
Definition three_pages (offset limit : nat) : http_outcome :=
  if (offset <? 200)%nat then page_of (replicate 100 (PyDict ∅))
  else if (offset =? 200)%nat then page_of (replicate 37 (PyDict ∅))
  else TransportError.

(** An upstream that has a full page of empty objects at every offset. *)
Definition endless (offset limit : nat) : http_outcome :=
  page_of (replicate 100 (PyDict ∅)).

(** An upstream whose first page holds a good record, a number and another
    good record; one that serves a full page before such a page; one whose
    body is a non-empty array; one whose [items] is a number. *)
Definition spoiled (offset limit : nat) : http_outcome :=
  page_of [PyDict ∅; PyInt 7; PyDict ∅].
Definition spoiled_later (offset limit : nat) : http_outcome :=
  if (offset <? 100)%nat then page_of (replicate 100 (PyDict ∅))
  else page_of [PyDict ∅; PyInt 7; PyDict ∅].
Definition array_body (offset limit : nat) : http_outcome :=
  Response 200 (Some (PyList [PyDict ∅])).
Definition numeric_items (offset limit : nat) : http_outcome :=
  Response 200 (Some (PyDict {[ "items" := PyInt 3 ]})).

(** An upstream whose page has no [items] key, and one whose [items] is
    the empty list. *)
Definition no_items_key (offset limit : nat) : http_outcome :=
  Response 200 (Some (PyDict {[ "totalItems" := PyInt 0 ]})).
Definition no_records (offset limit : nat) : http_outcome := page_of [].

(** An upstream that cannot be reached, one that answers 503, one whose
    body is not JSON, and one that answers [{}]. *)
Definition unreachable (offset limit : nat) : http_outcome := TransportError.
Definition unavailable (offset limit : nat) : http_outcome := Response 503 None.
Definition garbled (offset limit : nat) : http_outcome := Response 200 None.
Definition empty_object (offset limit : nat) : http_outcome :=
  Response 200 (Some (PyDict ∅)).

(** A scraper that holds two rows with different columns. *)
Definition row_pac : gmap string pyval := {[ "id" := PyInt 1; "stat_pac" := PyInt 90 ]}.
Definition row_div : gmap string pyval := {[ "id" := PyInt 2; "stat_div" := PyInt 80 ]}.

Definition two_rows : state :=
  {| players_data := [row_pac; row_div];
     stdout := []; requests := []; sleeps := 0; files := ∅ |}.

(** The lone surrogate U+D800, which [json.loads] yields for the escape
    [\ud800], and a scraper whose second row holds it as a first name. *)
Definition lone_surrogate : string :=
  String (ascii_of_nat 237) (String (ascii_of_nat 160) (String (ascii_of_nat 128) "")).

Definition row_surrogate : gmap string pyval :=
  {[ "id" := PyInt 3; "firstName" := PyStr lone_surrogate ]}.

Definition surrogate_rows : state :=
  {| players_data := [row_pac; row_surrogate];
     stdout := []; requests := []; sleeps := 0; files := ∅ |}.

(** An upstream that answers 200 with a body that is not UTF-8 text. *)
Definition bad_utf8 (offset limit : nat) : http_outcome :=
  Undecodable 200 UnicodeDecodeError.

(** A single alternate position whose label holds the separator, and one
    whose label is a number. *)
Definition barred_label : gmap string pyval :=
  {[ "alternatePositions" := PyList [PyDict {[ "shortLabel" := PyStr "LW|RW" ]}] ]}.
Definition numeric_label : gmap string pyval :=
  {[ "alternatePositions" := PyList [PyDict {[ "shortLabel" := PyInt 7 ]}] ]}.

End Samples.

(** ** Properties of the flattener *)

Lemma Ok_inj {A} (a b : A) : Ok a = Ok b → a = b.
Proof. by intros [= ->]. Qed.

Lemma elem_ok_label keys key m :
  key ∈ keys →
  forallb (λ k, is_str (default (PyStr "") (m !! k))) keys = true →
  default (PyStr "") (m !! key) = PyStr (label_str key (PyDict m)).
Proof.
  intros Hin Hall. rewrite forallb_forall in Hall.
  specialize (Hall key). rewrite <- list_elem_of_In in Hall.
  specialize (Hall Hin). unfold label_str.
  by destruct (default (PyStr "") (m !! key)).
Qed.

Lemma mapM_get_ok keys key l :
  key ∈ keys →
  forallb (elem_ok keys) l = true →
  mapM (λ elem, py_get elem key (PyStr "")) (List.filter truthy l)
  = Ok (PyStr <$> (label_str key <$> List.filter truthy l)).
Proof.
  intros Hin. induction l as [|e l IH]; intros Hok; [done|].
  cbn [forallb] in Hok. apply andb_prop in Hok as [He Hl].
  cbn [List.filter]. destruct (truthy e) eqn:Ht; [|auto].
  unfold elem_ok in He. rewrite Ht in He. cbn [negb orb] in He.
  destruct e as [| | | | | |m]; try discriminate.
  cbn [mapM]. rewrite (IH Hl). cbn [py_get].
  rewrite (elem_ok_label keys key m Hin He). done.
Qed.

Lemma comprehension_ok keys key v :
  key ∈ keys →
  list_field_ok keys v = true →
  comprehension (py_or v (PyList [])) key = Ok (PyStr <$> labels_of key v).
Proof.
  intros Hin Hok. unfold labels_of, elems_of, list_field_ok, py_or in *.
  destruct (truthy v) eqn:Ht; cbn [negb orb] in Hok.
  - destruct v as [| | | | |l|]; try discriminate.
    unfold comprehension. cbn [py_iter mbind result_bind].
    by apply (mapM_get_ok keys).
  - done.
Qed.

Lemma mapM_str_of (labels : list string) :
  mapM py_str_of (PyStr <$> labels) = Ok labels.
Proof.
  induction labels as [|s labels IH]; [done|].
  cbn [fmap list_fmap mapM]. cbn [py_str_of mbind result_bind].
  fold (fmap (M:=list) PyStr labels). by rewrite IH.
Qed.

Lemma joined_strs (labels : list string) :
  joined (PyStr <$> labels) = Ok (PyStr (String.concat "|" labels)).
Proof.
  unfold joined, py_join. rewrite mapM_str_of.
  destruct labels; done.
Qed.

Lemma object_field_sub v :
  object_field_ok v = true → py_or v (PyDict ∅) = PyDict (sub_of v).
Proof.
  unfold object_field_ok, sub_of, py_or.
  destruct (truthy v); cbn [negb orb]; [|done].
  by destruct v.
Qed.

Lemma sub_of_falsy v : truthy v = false → sub_of v = ∅.
Proof. unfold sub_of, py_or. by intros ->. Qed.

Lemma sub_of_dict m : sub_of (PyDict m) = m.
Proof.
  unfold sub_of, py_or. destruct (truthy (PyDict m)) eqn:Ht; [done|].
  cbn in Ht. apply negb_false_iff, Nat.eqb_eq, map_size_empty_iff in Ht. done.
Qed.

Lemma elems_of_falsy v : truthy v = false → elems_of v = [].
Proof. unfold elems_of, py_or. by intros ->. Qed.

Lemma elems_of_list l : elems_of (PyList l) = l.
Proof.
  unfold elems_of, py_or. destruct (truthy (PyList l)) eqn:Ht; [done|].
  cbn in Ht. apply negb_false_iff, Nat.eqb_eq in Ht. by destruct l.
Qed.

(** On a well-shaped record the flattener returns, and returns [flat]. *)
Lemma extract_well_shaped d :
  well_shaped d = true → extract_player_data (PyDict d) = Ok (flat d).
Proof.
  unfold well_shaped. rewrite !andb_true_iff.
  intros [[[[[Halt Hab] Hnat] Hteam] Hpos] Hstats].
  unfold extract_player_data.
  cbn [py_get mbind result_bind fmap result_fmap].
  fold (field d "alternatePositions") (field d "playerAbilities")
       (field d "nationality") (field d "team") (field d "position") (field d "stats").
  rewrite (comprehension_ok ["shortLabel"] "shortLabel" _ ltac:(set_solver) Halt).
  cbn [mbind result_bind]. rewrite joined_strs. cbn [mbind result_bind].
  rewrite (comprehension_ok ["label"; "imageUrl"] "label" _ ltac:(set_solver) Hab).
  rewrite (comprehension_ok ["label"; "imageUrl"] "imageUrl" _ ltac:(set_solver) Hab).
  cbn [mbind result_bind]. rewrite !joined_strs. cbn [mbind result_bind].
  rewrite !object_field_sub by assumption.
  cbn [py_get py_items mbind result_bind].
  done.
Qed.

(** The stats loop, pointwise: a column [stat_<k>] is set exactly for the
    stat keys whose entry carries a [value]; every other column is left as
    it was.  This also shows that the order in which [items()] yields the
    entries does not matter. *)
Lemma fold_add_stat_lookup (base stats : gmap string pyval) :
  (∀ k, map_fold add_stat base stats !! ("stat_" +:+ k)
        = match stats !! k ≫= stat_value with
          | Some v => Some v
          | None => base !! ("stat_" +:+ k)
          end)
  ∧ (∀ c, (∀ k, c ≠ "stat_" +:+ k) → map_fold add_stat base stats !! c = base !! c).
Proof.
  apply (map_fold_weak_ind (λ r m,
    (∀ k, r !! ("stat_" +:+ k)
          = match m !! k ≫= stat_value with
            | Some v => Some v
            | None => base !! ("stat_" +:+ k)
            end)
    ∧ (∀ c, (∀ k, c ≠ "stat_" +:+ k) → r !! c = base !! c))).
  - split; [intros k; by rewrite lookup_empty | done].
  - intros i x m r Hi [IHs IHo].
    assert (Hkeep : ∀ k, k ≠ i → <[i:=x]> m !! k ≫= stat_value = m !! k ≫= stat_value).
    { intros k Hk. by rewrite lookup_insert_ne. }
    assert (Hnov : stat_value x = None →
      (∀ k, r !! ("stat_" +:+ k)
          = match <[i:=x]> m !! k ≫= stat_value with
            | Some v => Some v
            | None => base !! ("stat_" +:+ k)
            end)).
    { intros Hx k. destruct (decide (k = i)) as [->|Hk].
      - rewrite lookup_insert_eq. cbn [mbind option_bind]. rewrite Hx.
        rewrite IHs, Hi. done.
      - rewrite Hkeep by done. apply IHs. }
    unfold add_stat.
    destruct x as [| | | | | |sd]; try (split; [by apply Hnov | done]).
    destruct (sd !! "value") as [v|] eqn:Hv; [|split; [by apply Hnov | done]].
    split.
    + intros k. destruct (decide (k = i)) as [->|Hk].
      * rewrite !lookup_insert_eq. cbn. by rewrite Hv.
      * rewrite lookup_insert_ne by (intros [= ?]; done).
        rewrite Hkeep by done. apply IHs.
    + intros c Hc. rewrite lookup_insert_ne by (intros <-; by apply (Hc i)).
      by apply IHo.
Qed.

Lemma flat_lookup_stat d k :
  flat d !! ("stat_" +:+ k) = sub_of (field d "stats") !! k ≫= stat_value.
Proof.
  unfold flat. rewrite (proj1 (fold_add_stat_lookup _ _)).
  destruct (_ ≫= _); [done|]. reflexivity.
Qed.

Lemma flat_lookup_other d c :
  (∀ k, c ≠ "stat_" +:+ k) → flat d !! c = base_row d !! c.
Proof. intros Hc. unfold flat. by apply (proj2 (fold_add_stat_lookup _ _)). Qed.

(** No column of the fixed schema starts with the stat prefix. *)
Lemma static_not_stat c k : c ∈ static_columns → c ≠ "stat_" +:+ k.
Proof.
  intros Hc. cbv in Hc.
  repeat (apply elem_of_cons in Hc as [->|Hc]; [intros [=]|]).
  by apply elem_of_nil in Hc.
Qed.

Lemma flat_lookup_static d c :
  c ∈ static_columns → flat d !! c = base_row d !! c.
Proof. intros Hc. apply flat_lookup_other. intros k. by apply static_not_stat. Qed.

Lemma base_row_lookup d c v :
  base_row d !! c = Some v →
    (∃ key, (c, key) ∈ scalar_columns ∧ v = field d key)
    ∨ (∃ fld key, (c, (fld, key)) ∈ list_columns
         ∧ v = PyStr (String.concat "|" (labels_of key (field d fld))))
    ∨ (∃ fld key, (c, (fld, key)) ∈ object_columns
         ∧ v = default (PyStr "") (sub_of (field d fld) !! key)).
Proof.
  unfold base_row. intros H%elem_of_list_to_map_2.
  rewrite !elem_of_app, !list_elem_of_fmap in H.
  destruct H as [(p & [= -> ->] & Hp)|[(p & [= -> ->] & Hp)|(p & [= -> ->] & Hp)]].
  - left. exists p.2. by destruct p.
  - right; left. exists p.2.1, p.2.2. by destruct p as [? []].
  - right; right. exists p.2.1, p.2.2. by destruct p as [? []].
Qed.

Lemma base_row_scalar d col key :
  (col, key) ∈ scalar_columns → base_row d !! col = Some (field d key).
Proof.
  intros Hc. cbv [scalar_columns] in Hc.
  repeat (apply elem_of_cons in Hc as [[= -> ->]|Hc]; [reflexivity|]).
  by apply elem_of_nil in Hc.
Qed.

Lemma base_row_list d col fld key :
  (col, (fld, key)) ∈ list_columns →
  base_row d !! col = Some (PyStr (String.concat "|" (labels_of key (field d fld)))).
Proof.
  intros Hc. cbv [list_columns] in Hc.
  repeat (apply elem_of_cons in Hc as [[= -> -> ->]|Hc]; [reflexivity|]).
  by apply elem_of_nil in Hc.
Qed.

Lemma base_row_object d col fld key :
  (col, (fld, key)) ∈ object_columns →
  base_row d !! col = Some (default (PyStr "") (sub_of (field d fld) !! key)).
Proof.
  intros Hc. cbv [object_columns] in Hc.
  repeat (apply elem_of_cons in Hc as [[= -> -> ->]|Hc]; [reflexivity|]).
  by apply elem_of_nil in Hc.
Qed.

Lemma scalar_static col key : (col, key) ∈ scalar_columns → col ∈ static_columns.
Proof.
  intros H. unfold static_columns. rewrite elem_of_app. left.
  apply list_elem_of_fmap. by exists (col, key).
Qed.

Lemma list_static col p : (col, p) ∈ list_columns → col ∈ static_columns.
Proof.
  intros H. unfold static_columns. rewrite !elem_of_app. right; left.
  apply list_elem_of_fmap. by exists (col, p).
Qed.

Lemma object_static col p : (col, p) ∈ object_columns → col ∈ static_columns.
Proof.
  intros H. unfold static_columns. rewrite !elem_of_app. right; right.
  apply list_elem_of_fmap. by exists (col, p).
Qed.

Lemma static_cases col :
  col ∈ static_columns →
  (∃ key, (col, key) ∈ scalar_columns)
  ∨ (∃ p, (col, p) ∈ list_columns) ∨ (∃ p, (col, p) ∈ object_columns).
Proof.
  unfold static_columns. rewrite !elem_of_app, !list_elem_of_fmap.
  intros [([c k] & -> & H)|[([c k] & -> & H)|([c k] & -> & H)]]; eauto.
Qed.

Lemma field_falsy_labels d fld key :
  truthy (field d fld) = false → labels_of key (field d fld) = [].
Proof. intros H. unfold labels_of. by rewrite elems_of_falsy. Qed.

(** C3, as amended: on every record whose nested fields are absent, falsy
    or of the expected shape, the flattener returns a row that holds each of
    the nineteen fixed columns: a scalar column holds the record's value or
    [None] when the key is absent, and a list-derived or object-derived
    column holds the empty string when its source field is absent or
    falsy. *)
Theorem flatten_total_on_well_shaped (d : gmap string pyval) :
  well_shaped d = true →
  ∃ row, extract_player_data (PyDict d) = Ok row
    ∧ (∀ col, col ∈ static_columns → is_Some (row !! col))
    ∧ (∀ col key, (col, key) ∈ scalar_columns →
         row !! col = Some (default PyNone (d !! key)))
    ∧ (∀ col fld key, (col, (fld, key)) ∈ list_columns →
         truthy (default PyNone (d !! fld)) = false → row !! col = Some (PyStr ""))
    ∧ (∀ col fld key, (col, (fld, key)) ∈ object_columns →
         truthy (default PyNone (d !! fld)) = false → row !! col = Some (PyStr "")).
Proof.
  intros Hd. exists (flat d). split; [by apply extract_well_shaped|].
  split; [|split; [|split]].
  - intros col Hcol. rewrite flat_lookup_static by done.
    destruct (static_cases col Hcol) as [[k H]|[[[f k] H]|[[f k] H]]].
    + rewrite (base_row_scalar d col k H). eauto.
    + rewrite (base_row_list d col f k H). eauto.
    + rewrite (base_row_object d col f k H). eauto.
  - intros col key H. rewrite flat_lookup_static by (by eapply scalar_static).
    by rewrite (base_row_scalar d col key H).
  - intros col fld key H Hf. rewrite flat_lookup_static by (by eapply list_static).
    rewrite (base_row_list d col fld key H).
    by rewrite field_falsy_labels.
  - intros col fld key H Hf. rewrite flat_lookup_static by (by eapply object_static).
    rewrite (base_row_object d col fld key H).
    fold (field d fld) in Hf. by rewrite sub_of_falsy.
Qed.

Lemma flatten_total_on_well_shaped_witness :
  well_shaped Samples.haaland = true
  ∧ ∃ row, extract_player_data (PyDict Samples.haaland) = Ok row
    ∧ (∀ col, col ∈ static_columns → is_Some (row !! col))
    ∧ (∀ col key, (col, key) ∈ scalar_columns →
         row !! col = Some (default PyNone (Samples.haaland !! key)))
    ∧ (∀ col fld key, (col, (fld, key)) ∈ list_columns →
         truthy (default PyNone (Samples.haaland !! fld)) = false →
         row !! col = Some (PyStr ""))
    ∧ (∀ col fld key, (col, (fld, key)) ∈ object_columns →
         truthy (default PyNone (Samples.haaland !! fld)) = false →
         row !! col = Some (PyStr "")).
Proof.
  split; [reflexivity|].
  apply (flatten_total_on_well_shaped Samples.haaland). reflexivity.
Defined.

(** C3, as stated, fails: on each of these records, which have a field of
    the wrong type, the flattener raises.  A string where the nationality
    object is expected has no [get]; a number where the list of alternate
    positions is expected cannot be iterated; a list where the stats mapping
    is expected has no [items]; a numeric label cannot be joined. *)
Lemma flatten_raises_on_malformed_field :
  extract_player_data (PyDict {[ "nationality" := PyStr "Norway" ]}) = Raise AttributeError
  ∧ extract_player_data (PyDict {[ "alternatePositions" := PyInt 5 ]}) = Raise TypeError
  ∧ extract_player_data (PyDict {[ "stats" := PyList [PyInt 1] ]}) = Raise AttributeError
  ∧ extract_player_data
      (PyDict {[ "alternatePositions" := PyList [PyDict {[ "shortLabel" := PyInt 3 ]}] ]})
    = Raise TypeError
  ∧ ¬ (∀ d, ∃ row, extract_player_data (PyDict d) = Ok row
              ∧ ∀ col, col ∈ static_columns → is_Some (row !! col)).
Proof.
  repeat split; try reflexivity.
  intros H. destruct (H {[ "nationality" := PyStr "Norway" ]}) as (row & Hrow & _).
  discriminate Hrow.
Qed.

Lemma stat_prefix_dec c : (∃ k, c = "stat_" +:+ k) ∨ (∀ k, c ≠ "stat_" +:+ k).
Proof.
  destruct c as [|a1 [|a2 [|a3 [|a4 [|a5 k]]]]];
    try (right; intros k' [=]; done).
  destruct (decide (a1 = "s"%char)) as [->|]; [|right; intros k' [=]; done].
  destruct (decide (a2 = "t"%char)) as [->|]; [|right; intros k' [=]; done].
  destruct (decide (a3 = "a"%char)) as [->|]; [|right; intros k' [=]; done].
  destruct (decide (a4 = "t"%char)) as [->|]; [|right; intros k' [=]; done].
  destruct (decide (a5 = "_"%char)) as [->|]; [|right; intros k' [=]; done].
  left. by exists k.
Qed.

Lemma field_insert_ne d fld v key :
  fld ≠ key → field (<[fld:=v]> d) key = field d key.
Proof. intros H. unfold field. by rewrite lookup_insert_ne. Qed.

(** Only the short-label column of the row before the stats depends on the
    record's [position]. *)
Lemma base_row_position d v :
  base_row (<["position":=v]> d)
  = <["position_short_label" := default (PyStr "") (sub_of v !! "shortLabel")]> (base_row d).
Proof.
  unfold base_row. cbn [fmap list_fmap scalar_columns list_columns object_columns app fst snd].
  unfold field. rewrite lookup_insert_eq.
  rewrite !lookup_insert_ne by done. reflexivity.
Qed.

Lemma well_shaped_position d v :
  well_shaped d = true → object_field_ok v = true →
  well_shaped (<["position":=v]> d) = true.
Proof.
  unfold well_shaped. rewrite !andb_true_iff.
  intros [[[[[Halt Hab] Hnat] Hteam] Hpos] Hstats] Hv.
  unfold field in *. rewrite lookup_insert_eq.
  rewrite !lookup_insert_ne by done. done.
Qed.

Lemma flat_position d v c :
  c ≠ "position_short_label" → flat (<["position":=v]> d) !! c = flat d !! c.
Proof.
  intros Hc. destruct (stat_prefix_dec c) as [[k ->]|Hns].
  - rewrite !flat_lookup_stat. by rewrite field_insert_ne.
  - rewrite !flat_lookup_other by done.
    rewrite base_row_position. by rewrite lookup_insert_ne.
Qed.

(** C4, as amended: on a well-shaped record the label and the image
    reference of [nationality] and of [team] go to two columns each, while
    of [position] only the short label is extracted, to one column: no other
    column of the row depends on the position.  Each of these columns is the
    empty string when its sub-object is absent or falsy. *)
Theorem nested_objects_flattened (d : gmap string pyval) :
  well_shaped d = true →
  ∃ row, extract_player_data (PyDict d) = Ok row
    ∧ (∀ m, d !! "nationality" = Some (PyDict m) →
         row !! "nationality_label" = Some (default (PyStr "") (m !! "label"))
         ∧ row !! "nationality_image_url" = Some (default (PyStr "") (m !! "imageUrl")))
    ∧ (∀ m, d !! "team" = Some (PyDict m) →
         row !! "team_label" = Some (default (PyStr "") (m !! "label"))
         ∧ row !! "team_image_url" = Some (default (PyStr "") (m !! "imageUrl")))
    ∧ (∀ m, d !! "position" = Some (PyDict m) →
         row !! "position_short_label" = Some (default (PyStr "") (m !! "shortLabel")))
    ∧ (truthy (default PyNone (d !! "nationality")) = false →
         row !! "nationality_label" = Some (PyStr "")
         ∧ row !! "nationality_image_url" = Some (PyStr ""))
    ∧ (truthy (default PyNone (d !! "team")) = false →
         row !! "team_label" = Some (PyStr "") ∧ row !! "team_image_url" = Some (PyStr ""))
    ∧ (truthy (default PyNone (d !! "position")) = false →
         row !! "position_short_label" = Some (PyStr ""))
    ∧ (∀ v, truthy v = false ∨ (∃ m, v = PyDict m) →
         ∃ row', extract_player_data (PyDict (<["position":=v]> d)) = Ok row'
           ∧ ∀ col, col ≠ "position_short_label" → row' !! col = row !! col).
Proof.
  intros Hd. exists (flat d). split; [by apply extract_well_shaped|].
  assert (Hobj : ∀ col fld key, (col, (fld, key)) ∈ object_columns →
    flat d !! col = Some (default (PyStr "") (sub_of (field d fld) !! key))).
  { intros col fld key H. rewrite flat_lookup_static by (by eapply object_static).
    by apply base_row_object. }
  assert (Hsome : ∀ fld m, d !! fld = Some (PyDict m) → sub_of (field d fld) = m).
  { intros fld m H. unfold field. rewrite H. apply sub_of_dict. }
  assert (Hnone : ∀ fld, truthy (default PyNone (d !! fld)) = false →
    sub_of (field d fld) = ∅).
  { intros fld H. by apply sub_of_falsy. }
  split_and!.
  - intros m Hm. rewrite (Hobj _ "nationality" "label"), (Hobj _ "nationality" "imageUrl")
      by set_solver. by rewrite (Hsome _ m).
  - intros m Hm. rewrite (Hobj _ "team" "label"), (Hobj _ "team" "imageUrl")
      by set_solver. by rewrite (Hsome _ m).
  - intros m Hm. rewrite (Hobj _ "position" "shortLabel") by set_solver.
    by rewrite (Hsome _ m).
  - intros Hf. rewrite (Hobj _ "nationality" "label"), (Hobj _ "nationality" "imageUrl")
      by set_solver. by rewrite Hnone.
  - intros Hf. rewrite (Hobj _ "team" "label"), (Hobj _ "team" "imageUrl")
      by set_solver. by rewrite Hnone.
  - intros Hf. rewrite (Hobj _ "position" "shortLabel") by set_solver.
    by rewrite Hnone.
  - intros v Hv. exists (flat (<["position":=v]> d)). split.
    + apply extract_well_shaped, well_shaped_position; [done|].
      unfold object_field_ok. destruct Hv as [->|[m ->]]; [done|apply orb_true_r].
    + intros col Hcol. by apply flat_position.
Qed.

Lemma nested_objects_flattened_witness :
  well_shaped Samples.haaland = true
  ∧ ∃ row, extract_player_data (PyDict Samples.haaland) = Ok row
    ∧ row !! "nationality_label" = Some (PyStr "Norway")
    ∧ row !! "nationality_image_url" = Some (PyStr "https://img/no.png")
    ∧ row !! "team_label" = Some (PyStr "")
    ∧ row !! "team_image_url" = Some (PyStr "")
    ∧ row !! "position_short_label" = Some (PyStr "ST").
Proof.
  split; [reflexivity|].
  destruct (nested_objects_flattened Samples.haaland eq_refl)
    as (row & Hrow & Hnat & _ & Hpos & _ & Hteam & _).
  exists row. split; [exact Hrow|].
  destruct (Hnat {[ "label" := PyStr "Norway"; "imageUrl" := PyStr "https://img/no.png" ]}
              eq_refl) as [Hl Hi].
  destruct (Hteam eq_refl) as [Htl Hti].
  split; [exact Hl|]. split; [exact Hi|]. split; [exact Htl|]. split; [exact Hti|].
  exact (Hpos {[ "shortLabel" := PyStr "ST"; "label" := PyStr "Striker";
                 "imageUrl" := PyStr "https://img/st.png" ]} eq_refl).
Defined.

(** On a record that has nothing but a position, every column other than
    the short label holds [None] or the empty string. *)
Lemma position_only_row (m : gmap string pyval) col s :
  s ≠ "" →
  flat {[ "position" := PyDict m ]} !! col = Some (PyStr s) →
  col = "position_short_label".
Proof.
  intros Hs Hcol. set (d := {[ "position" := PyDict m ]}) in *.
  assert (Hfld : ∀ key, key ≠ "position" → field d key = PyNone).
  { intros key Hk. unfold field, d. by rewrite lookup_singleton_ne. }
  destruct (stat_prefix_dec col) as [[k ->]|Hns].
  { rewrite flat_lookup_stat, Hfld in Hcol by done. discriminate Hcol. }
  rewrite flat_lookup_other in Hcol by done.
  apply base_row_lookup in Hcol as [(key & Hin & Hv)|[(fld & key & Hin & Hv)|(fld & key & Hin & Hv)]].
  - cbv [scalar_columns] in Hin.
    repeat (apply elem_of_cons in Hin as [[= -> ->]|Hin];
            [rewrite Hfld in Hv by done; discriminate Hv|]).
    by apply elem_of_nil in Hin.
  - cbv [list_columns] in Hin.
    repeat (apply elem_of_cons in Hin as [[= -> -> ->]|Hin];
            [rewrite Hfld in Hv by done; injection Hv as ->; by destruct Hs|]).
    by apply elem_of_nil in Hin.
  - cbv [object_columns] in Hin.
    repeat (apply elem_of_cons in Hin as [[= -> -> ->]|Hin];
            [first [reflexivity
                   | rewrite Hfld in Hv by done; vm_compute in Hv;
                     injection Hv as ->; by destruct Hs]|]).
    by apply elem_of_nil in Hin.
Qed.

(** C4, as stated, fails for [position]: there are no two sub-fields of the
    position object that the flattener copies to two columns.  The record
    consulted has a position with two sub-fields of different values, and
    nothing else. *)
Lemma position_has_no_second_column :
  ¬ (∀ fld, fld ∈ ["position"; "team"; "nationality"] →
       ∃ lbl img col_l col_i : string,
         lbl ≠ img ∧ col_l ≠ col_i
         ∧ ∀ d m, well_shaped d = true → d !! fld = Some (PyDict m) →
             ∃ row, extract_player_data (PyDict d) = Ok row
               ∧ row !! col_l = Some (default (PyStr "") (m !! lbl))
               ∧ row !! col_i = Some (default (PyStr "") (m !! img))).
Proof.
  intros H.
  destruct (H "position") as (lbl & img & col_l & col_i & Hne & Hcol & Hall);
    [set_solver|].
  set (m := <[lbl := PyStr "Striker"]> {[ img := PyStr "https://img/st.png" ]}
         : gmap string pyval).
  assert (Hd : well_shaped {[ "position" := PyDict m ]} = true).
  { unfold well_shaped, field. rewrite lookup_singleton_eq.
    rewrite !lookup_singleton_ne by done. cbn.
    rewrite andb_true_r. apply orb_true_r. }
  destruct (Hall {[ "position" := PyDict m ]} m Hd) as (row & Hrow & Hl & Hi).
  { apply lookup_singleton_eq. }
  rewrite (extract_well_shaped _ Hd) in Hrow. apply Ok_inj in Hrow as <-.
  unfold m in Hl, Hi.
  rewrite lookup_insert_eq in Hl.
  rewrite lookup_insert_ne, lookup_singleton_eq in Hi by done.
  apply position_only_row in Hl; [|done].
  apply position_only_row in Hi; [|done].
  congruence.
Qed.

Lemma flat_is_Some d col :
  is_Some (flat d !! col)
  ↔ col ∈ static_columns
    ∨ ∃ k, col = "stat_" +:+ k ∧ is_Some (sub_of (field d "stats") !! k ≫= stat_value).
Proof.
  split.
  - intros [v Hv]. destruct (stat_prefix_dec col) as [[k ->]|Hns].
    + right. exists k. split; [done|]. rewrite <- flat_lookup_stat. eauto.
    + left. rewrite flat_lookup_other in Hv by done.
      apply base_row_lookup in Hv as [(key & Hin & _)|[(fld & key & Hin & _)|(fld & key & Hin & _)]].
      * by eapply scalar_static.
      * by eapply list_static.
      * by eapply object_static.
  - intros [Hcol|(k & -> & Hk)].
    + rewrite flat_lookup_static by done.
      destruct (static_cases col Hcol) as [[k H]|[[[f k] H]|[[f k] H]]].
      * rewrite (base_row_scalar d col k H). eauto.
      * rewrite (base_row_list d col f k H). eauto.
      * rewrite (base_row_object d col f k H). eauto.
    + by rewrite flat_lookup_stat.
Qed.

(** C5, as amended: on a well-shaped record whose [stats] is a mapping,
    the flattener emits the column [stat_<key>] exactly for the stat keys
    whose entry is itself a mapping with a [value] sub-field, and the column
    holds that value; a stat key whose entry is anything else yields no
    column.  The row's columns are the nineteen fixed ones and these, and the
    prefix keeps the two kinds apart. *)
Theorem stats_columns (d stats : gmap string pyval) :
  well_shaped d = true →
  d !! "stats" = Some (PyDict stats) →
  ∃ row, extract_player_data (PyDict d) = Ok row
    ∧ (∀ k sd v, stats !! k = Some (PyDict sd) → sd !! "value" = Some v →
         row !! ("stat_" +:+ k) = Some v)
    ∧ (∀ k, row !! ("stat_" +:+ k) = stats !! k ≫= stat_value)
    ∧ (∀ col, is_Some (row !! col)
         ↔ col ∈ static_columns
           ∨ ∃ k, col = "stat_" +:+ k ∧ is_Some (stats !! k ≫= stat_value))
    ∧ (∀ k, "stat_" +:+ k ∉ static_columns).
Proof.
  intros Hd Hstats. exists (flat d). split; [by apply extract_well_shaped|].
  assert (Hsub : sub_of (field d "stats") = stats).
  { unfold field. rewrite Hstats. apply sub_of_dict. }
  split_and!.
  - intros k sd v Hk Hv. rewrite flat_lookup_stat, Hsub, Hk. exact Hv.
  - intros k. by rewrite flat_lookup_stat, Hsub.
  - intros col. rewrite flat_is_Some. by rewrite Hsub.
  - intros k Hin. by apply (static_not_stat _ k) in Hin.
Qed.

Lemma stats_columns_witness :
  well_shaped Samples.haaland = true
  ∧ ∃ row, extract_player_data (PyDict Samples.haaland) = Ok row
      ∧ row !! "stat_pac" = Some (PyInt 88)
      ∧ row !! "stat_sho" = None
      ∧ row !! "stat_pas" = None.
Proof.
  split; [reflexivity|].
  destruct (stats_columns Samples.haaland
              {[ "pac" := PyDict {[ "value" := PyInt 88; "diff" := PyInt 0 ]};
                 "sho" := PyDict {[ "diff" := PyInt 1 ]};
                 "pas" := PyInt 66 ]} eq_refl eq_refl)
    as (row & Hrow & _ & Hall & _).
  exists row. split; [exact Hrow|].
  split; [exact (Hall "pac")|]. split; [exact (Hall "sho")|exact (Hall "pas")].
Defined.

(** C5, as stated, fails: a stat key whose entry has no [value] sub-field,
    or is not a mapping at all, gets no column. *)

(** C5, as stated, fails: a stat key whose entry has no [value] sub-field,
    or is not a mapping at all, gets no column. *)
Lemma stat_without_value_has_no_column :
  (∃ row, extract_player_data (PyDict Samples.stats_only) = Ok row
     ∧ is_Some (Samples.bare_stats !! "sho") ∧ row !! "stat_sho" = None
     ∧ is_Some (Samples.bare_stats !! "pas") ∧ row !! "stat_pas" = None)
  ∧ ¬ (∀ d stats : gmap string pyval,
         well_shaped d = true → d !! "stats" = Some (PyDict stats) →
         ∃ row, extract_player_data (PyDict d) = Ok row
           ∧ ∀ k, is_Some (stats !! k) → is_Some (row !! ("stat_" +:+ k))).
Proof.
  assert (Hd : well_shaped Samples.stats_only = true) by (vm_compute; reflexivity).
  assert (Hs : Samples.stats_only !! "stats" = Some (PyDict Samples.bare_stats))
    by apply lookup_singleton_eq.
  assert (Hsub : sub_of (field Samples.stats_only "stats") = Samples.bare_stats).
  { unfold field. rewrite Hs. apply sub_of_dict. }
  assert (Hno : ∀ k, Samples.bare_stats !! k ≫= stat_value = None →
            flat Samples.stats_only !! ("stat_" +:+ k) = None).
  { intros k Hk. by rewrite flat_lookup_stat, Hsub. }
  assert (Hsho : Samples.bare_stats !! "sho" ≫= stat_value = None)
    by (vm_compute; reflexivity).
  assert (Hpas : Samples.bare_stats !! "pas" ≫= stat_value = None)
    by (vm_compute; reflexivity).
  split.
  - exists (flat Samples.stats_only).
    split; [by apply extract_well_shaped|].
    split; [eexists; vm_compute; reflexivity|]. split; [exact (Hno "sho" Hsho)|].
    split; [eexists; vm_compute; reflexivity|exact (Hno "pas" Hpas)].
  - intros H.
    destruct (H _ _ Hd Hs) as (row & Hrow & Hall).
    rewrite (extract_well_shaped _ Hd) in Hrow. apply Ok_inj in Hrow as <-.
    destruct (Hall "sho") as [v Hv]; [eexists; vm_compute; reflexivity|].
    rewrite (Hno "sho" Hsho) in Hv. discriminate Hv.
Qed.

(** *** Joined list columns *)

Lemma list_column d col fld key l :
  well_shaped d = true →
  (col, (fld, key)) ∈ list_columns →
  d !! fld = Some (PyList l) →
  flat d !! col
  = Some (PyStr (String.concat "|" (label_str key <$> List.filter truthy l))).
Proof.
  intros Hd Hcol Hl. rewrite flat_lookup_static by (by eapply list_static).
  rewrite (base_row_list d col fld key Hcol).
  unfold labels_of, field. rewrite Hl.
  change (default PyNone (Some (PyList l))) with (PyList l). by rewrite elems_of_list.
Qed.

Lemma supplies_truthy key elem s : supplies key elem s → truthy elem = true.
Proof.
  intros (m & -> & Hm). cbn. apply negb_true_iff, Nat.eqb_neq.
  intros Hsize%map_size_empty_iff. rewrite Hsize, lookup_empty in Hm. discriminate.
Qed.

Lemma supplies_label key elem s : supplies key elem s → label_str key elem = s.
Proof. intros (m & -> & Hm). unfold label_str. by rewrite Hm. Qed.

Lemma supplied_labels key l labels :
  Forall2 (supplies key) l labels → label_str key <$> l = labels.
Proof.
  induction 1 as [|e s l labels He _ IH]; [done|].
  cbn [fmap list_fmap]. f_equal; [by eapply supplies_label | exact IH].
Qed.

Lemma supplied_all_truthy key l labels :
  Forall2 (supplies key) l labels → List.filter truthy l = l.
Proof.
  induction 1 as [|e s l labels He _ IH]; [done|].
  cbn [List.filter]. rewrite (supplies_truthy _ _ _ He). by f_equal.
Qed.

Lemma filter_length_le {A} (f : A → bool) l : length (List.filter f l) ≤ length l.
Proof. induction l as [|x l IH]; [done|]. cbn. destruct (f x); cbn; lia. Qed.

Lemma filter_length_lt {A} (f : A → bool) l :
  Exists (λ x, f x = false) l → length (List.filter f l) < length l.
Proof.
  induction 1 as [x l Hx|x l _ IH]; cbn.
  - rewrite Hx. pose proof (filter_length_le f l). lia.
  - destruct (f x); cbn; lia.
Qed.

(** Splitting a joined column gives the labels back, as long as no label
    contains the separator. *)
Lemma segments_nonempty s : segments s ≠ [].
Proof.
  destruct s as [|c s]; [done|]. cbn.
  destruct (Ascii.eqb _ _); [done|]. by destruct (segments s).
Qed.

Lemma segments_bar_free_app s t :
  bar_free s = true →
  segments (s +:+ t)
  = match segments t with
    | seg :: rest => (s +:+ seg) :: rest
    | [] => [s]
    end.
Proof.
  induction s as [|c s IH]; intros Hs.
  - change ("" +:+ t) with t.
    pose proof (segments_nonempty t). destruct (segments t); [congruence|reflexivity].
  - cbn in Hs. apply andb_prop in Hs as [Hc Hs]. apply negb_true_iff in Hc.
    change (String c s +:+ t) with (String c (s +:+ t)).
    cbn [segments]. rewrite Hc, (IH Hs).
    destruct (segments t); reflexivity.
Qed.

Lemma append_empty_r s : s +:+ "" = s.
Proof.
  induction s as [|c s IH]; [done|].
  change (String c s +:+ "") with (String c (s +:+ "")). by rewrite IH.
Qed.

Lemma segments_bar_free s : bar_free s = true → segments s = [s].
Proof.
  intros Hs. rewrite <- (append_empty_r s) at 1.
  rewrite segments_bar_free_app by done. cbn. by rewrite append_empty_r.
Qed.

Lemma segments_concat labels :
  labels ≠ [] → Forall (λ s, bar_free s = true) labels →
  segments (String.concat "|" labels) = labels.
Proof.
  induction labels as [|s labels IH]; [done|]. intros _ Hall.
  apply Forall_cons in Hall as [Hs Hall].
  destruct labels as [|s' labels].
  - cbn. by apply segments_bar_free.
  - change (String.concat "|" (s :: s' :: labels))
      with (s +:+ String "|" (String.concat "|" (s' :: labels))).
    rewrite segments_bar_free_app by done.
    change (segments (String "|" (String.concat "|" (s' :: labels))))
      with ("" :: segments (String.concat "|" (s' :: labels))).
    rewrite IH by done. by rewrite append_empty_r.
Qed.

(** C6, as amended: on a well-shaped record, when a list field holds N
    objects that each supply the extracted attribute as a string, the joined
    column is those N strings, in list order, separated by [|]; splitting
    the column at [|] gives them back, so it has exactly N segments, when N
    is not 0 and none of them contains the separator; and for the empty list
    the column is the empty string.  The list columns are
    [alternate_positions], [player_abilities_labels] and
    [player_abilities_images]. *)
Theorem joined_column_segments (d : gmap string pyval) col fld key
    (l : list pyval) (labels : list string) :
  well_shaped d = true →
  (col, (fld, key)) ∈ list_columns →
  d !! fld = Some (PyList l) →
  Forall2 (supplies key) l labels →
  ∃ row, extract_player_data (PyDict d) = Ok row
    ∧ row !! col = Some (PyStr (String.concat "|" labels))
    ∧ length labels = length l
    ∧ (labels ≠ [] → Forall (λ s, bar_free s = true) labels →
         segments (String.concat "|" labels) = labels)
    ∧ (l = [] → row !! col = Some (PyStr "")).
Proof.
  intros Hd Hcol Hl Hlab. exists (flat d). split; [by apply extract_well_shaped|].
  assert (Hrow : flat d !! col = Some (PyStr (String.concat "|" labels))).
  { rewrite (list_column d col fld key l) by done.
    rewrite (supplied_all_truthy key l labels Hlab).
    by rewrite (supplied_labels key l labels Hlab). }
  split_and!.
  - exact Hrow.
  - symmetry. by eapply Forall2_length.
  - apply segments_concat.
  - intros ->. apply Forall2_nil_inv_l in Hlab as ->. exact Hrow.
Qed.

(** C10: on a well-shaped record, the joined column is built from the
    truthy elements of the list only: when these supply the strings
    [labels], the column is [labels] joined by [|], so it has as many
    segments as the list has truthy elements, and strictly fewer than the
    list has elements as soon as one of them is falsy. *)
Theorem falsy_elements_skipped (d : gmap string pyval) col fld key
    (l : list pyval) (labels : list string) :
  well_shaped d = true →
  (col, (fld, key)) ∈ list_columns →
  d !! fld = Some (PyList l) →
  Forall2 (supplies key) (List.filter truthy l) labels →
  ∃ row, extract_player_data (PyDict d) = Ok row
    ∧ row !! col = Some (PyStr (String.concat "|" labels))
    ∧ length labels = length (List.filter truthy l)
    ∧ length labels ≤ length l
    ∧ (Exists (λ elem, truthy elem = false) l → length labels < length l).
Proof.
  intros Hd Hcol Hl Hlab. exists (flat d). split; [by apply extract_well_shaped|].
  assert (Hlen : length labels = length (List.filter truthy l)).
  { symmetry. by eapply Forall2_length. }
  split_and!.
  - rewrite (list_column d col fld key l) by done.
    by rewrite (supplied_labels key _ labels Hlab).
  - exact Hlen.
  - rewrite Hlen. apply filter_length_le.
  - intros Hex. rewrite Hlen. by apply filter_length_lt.
Qed.

Lemma joined_column_segments_witness :
  well_shaped Samples.winger = true
  ∧ ∃ row, extract_player_data (PyDict Samples.winger) = Ok row
      ∧ row !! "alternate_positions" = Some (PyStr "LW|RW")
      ∧ segments "LW|RW" = ["LW"; "RW"]
      ∧ row !! "player_abilities_labels" = Some (PyStr "").
Proof.
  split; [reflexivity|].
  destruct (joined_column_segments Samples.winger
              "alternate_positions" "alternatePositions" "shortLabel"
              [PyDict {[ "shortLabel" := PyStr "LW" ]}; PyDict {[ "shortLabel" := PyStr "RW" ]}]
              ["LW"; "RW"])
    as (row & Hrow & Hcol & _ & Hseg & _).
  { reflexivity. }
  { apply list_elem_of_In. left. reflexivity. }
  { reflexivity. }
  { repeat constructor; eexists; split; reflexivity. }
  destruct (joined_column_segments Samples.winger
              "player_abilities_labels" "playerAbilities" "label" [] [])
    as (row' & Hrow' & _ & _ & _ & Hnil).
  { reflexivity. }
  { apply list_elem_of_In. right. left. reflexivity. }
  { reflexivity. }
  { constructor. }
  exists row. split; [exact Hrow|]. split; [exact Hcol|].
  split; [apply Hseg; [discriminate|repeat constructor]|].
  rewrite Hrow in Hrow'. apply Ok_inj in Hrow' as <-. by apply Hnil.
Defined.

(** C6, as stated, fails: a single alternate position whose label holds the
    separator gives a column of two segments, and one whose label is a
    number makes the flattener raise. *)
Lemma label_with_separator_splits :
  well_shaped Samples.barred_label = true
  ∧ Samples.barred_label !! "alternatePositions"
    = Some (PyList [PyDict {[ "shortLabel" := PyStr "LW|RW" ]}])
  ∧ (∃ row, extract_player_data (PyDict Samples.barred_label) = Ok row
       ∧ row !! "alternate_positions" = Some (PyStr "LW|RW")
       ∧ segments "LW|RW" = ["LW"; "RW"])
  ∧ extract_player_data (PyDict Samples.numeric_label) = Raise TypeError.
Proof.
  assert (Hw : well_shaped Samples.barred_label = true) by reflexivity.
  split; [exact Hw|]. split; [reflexivity|]. split; [|reflexivity].
  exists (flat Samples.barred_label). split; [by apply extract_well_shaped|].
  split; [|reflexivity].
  rewrite (list_column Samples.barred_label "alternate_positions" "alternatePositions"
             "shortLabel" [PyDict {[ "shortLabel" := PyStr "LW|RW" ]}] Hw).
  - reflexivity.
  - apply list_elem_of_In. left. reflexivity.
  - reflexivity.
Qed.

Lemma falsy_elements_skipped_witness :
  well_shaped Samples.haaland = true
  ∧ Samples.haaland !! "alternatePositions"
    = Some (PyList [Samples.striker; PyNone; PyDict {[ "shortLabel" := PyStr "CF" ]}])
  ∧ ∃ row, extract_player_data (PyDict Samples.haaland) = Ok row
      ∧ row !! "alternate_positions" = Some (PyStr "ST|CF")
      ∧ length ["ST"; "CF"] < length [Samples.striker; PyNone; PyDict {[ "shortLabel" := PyStr "CF" ]}].
Proof.
  split; [reflexivity|]. split; [reflexivity|].
  destruct (falsy_elements_skipped Samples.haaland
              "alternate_positions" "alternatePositions" "shortLabel"
              [Samples.striker; PyNone; PyDict {[ "shortLabel" := PyStr "CF" ]}]
              ["ST"; "CF"])
    as (row & Hrow & Hcol & _ & _ & Hlt).
  { reflexivity. }
  { apply list_elem_of_In. left. reflexivity. }
  { reflexivity. }
  { repeat constructor; eexists; split; reflexivity. }
  exists row. split; [exact Hrow|]. split; [exact Hcol|].
  apply Hlt. apply Exists_cons_tl, Exists_cons_hd. reflexivity.
Defined.

(** ** Properties of the fetcher *)

Section fetcher_facts.
Variable client : nat → nat → http_outcome.

Lemma fetch_page_run offset limit st :
  escapes (client offset limit) = None →
  fetch_page client offset limit st
  = (Ok (decoded (client offset limit)),
     {| players_data := players_data st;
        stdout := stdout st ++ fetch_diagnostic offset (client offset limit);
        requests := requests st ++ [(offset, limit)];
        sleeps := sleeps st; files := files st |}).
Proof.
  unfold fetch_page, http_get, mbind, M_bind, decoded, body_of, fetch_diagnostic, escapes.
  destruct (client offset limit) as [|status [data|]|status e]; cbn;
    try destruct (is_success status); cbn; rewrite ?app_nil_r;
    (reflexivity || discriminate).
Qed.

(** An exception of [response.json()] that is not caught leaves
    [fetch_page] after the request, with nothing printed. *)
Lemma fetch_page_escapes offset limit st e :
  escapes (client offset limit) = Some e →
  fetch_page client offset limit st
  = (Raise e,
     {| players_data := players_data st; stdout := stdout st;
        requests := requests st ++ [(offset, limit)];
        sleeps := sleeps st; files := files st |}).
Proof.
  unfold fetch_page, http_get, mbind, M_bind, escapes.
  destruct (client offset limit) as [|status [data|]|status e']; try discriminate.
  cbn. destruct (is_success status); [|discriminate]. by intros [= ->].
Qed.

(** The loop over the records of a page: rows are appended one by one
    until a record makes the flattener raise; nothing else changes. *)
Lemma for_each_extract players st :
  ∃ r rows,
    for_each players (λ player,
      player_data ← lift (extract_player_data player);
      append_player player_data) st
    = (r, {| players_data := players_data st ++ rows; stdout := stdout st;
             requests := requests st; sleeps := sleeps st; files := files st |})
    ∧ length rows ≤ length players
    ∧ (∀ all_rows, mapM extract_player_data players = Ok all_rows →
         r = Ok () ∧ rows = all_rows)
    ∧ (r = Ok () → mapM extract_player_data players = Ok rows).
Proof.
  revert st. induction players as [|p players IH]; intros st.
  - exists (Ok ()), []. rewrite app_nil_r. split; [by destruct st|].
    split; [done|]. split; [by intros ? [= <-]|done].
  - cbn [for_each]. unfold mbind at 1, M_bind at 1. unfold mbind at 1, M_bind at 1.
    unfold lift at 1. destruct (extract_player_data p) as [row|e] eqn:Hp.
    + unfold append_player at 1.
      match goal with |- context [for_each players ?b ?s] =>
        destruct (IH s) as (r & rows & Hrun & Hlen & Hall & Hok) end.
      cbn [players_data stdout requests sleeps files] in Hrun.
      exists r, (row :: rows). rewrite Hrun.
      split; [by rewrite <- app_assoc|]. split; [cbn; lia|].
      cbn [mapM]. rewrite Hp. cbn [mbind result_bind]. split.
      * intros all_rows Hm. destruct (mapM extract_player_data players) as [rs|] eqn:Hrs;
          [|discriminate Hm]. apply Ok_inj in Hm as <-.
        destruct (Hall rs eq_refl) as [-> ->]. done.
      * intros Hr. by rewrite (Hok Hr).
    + exists (Raise e), []. rewrite app_nil_r. split; [by destruct st|].
      split; [cbn; lia|]. cbn [mapM]. rewrite Hp. split; [intros ? [=]|intros [=]].
Qed.

Lemma bind_run {A B} (m : M A) (f : A → M B) st :
  (m ≫= f) st
  = match m st with
    | (Ok a, st') => f a st'
    | (Raise e, st') => (Raise e, st')
    end.
Proof. reflexivity. Qed.

Lemma body_decoded o data : body_of o = Some data → decoded o = data.
Proof. unfold decoded. by intros ->. Qed.

Lemma body_no_diagnostic offset o data :
  body_of o = Some data → fetch_diagnostic offset o = [].
Proof.
  destruct o as [|status [d|]|status e]; cbn; try done.
  by destruct (is_success status).
Qed.

Lemma body_no_escape o data : body_of o = Some data → escapes o = None.
Proof. by destruct o. Qed.

Lemma failed_decoded o : fetch_failed o = true → decoded o = PyNone.
Proof.
  destruct o as [|status [d|]|status e]; unfold decoded; cbn; try done.
  by destruct (is_success status).
Qed.

Lemma failed_no_escape o : fetch_failed o = true → escapes o = None.
Proof.
  destruct o as [|status [d|]|status e]; cbn; try done.
  by destruct (is_success status).
Qed.

(** A pass whose fetch yields a falsy value: failure or falsy body. *)
Lemma loop_body_falsy limit offset total st :
  escapes (client offset limit) = None →
  truthy (decoded (client offset limit)) = false →
  loop_body client limit offset total st
  = (Ok Break,
     {| players_data := players_data st;
        stdout := stdout st ++ [FetchingPage offset]
                  ++ fetch_diagnostic offset (client offset limit)
                  ++ [FailedFetch offset];
        requests := requests st ++ [(offset, limit)];
        sleeps := sleeps st; files := files st |}).
Proof.
  intros Hesc Hf. unfold loop_body. rewrite bind_run. cbn [print].
  rewrite bind_run, fetch_page_run by done. rewrite Hf. cbn [negb].
  rewrite bind_run. cbn. by rewrite <- !app_assoc.
Qed.

(** A pass whose page decodes to a mapping without records. *)
Lemma loop_body_no_items limit offset total st d :
  body_of (client offset limit) = Some (PyDict d) →
  truthy (PyDict d) = true →
  truthy (default (PyList []) (d !! "items")) = false →
  loop_body client limit offset total st
  = (Ok Break,
     {| players_data := players_data st;
        stdout := stdout st ++ [FetchingPage offset; NoMoreItems];
        requests := requests st ++ [(offset, limit)];
        sleeps := sleeps st; files := files st |}).
Proof.
  intros Hb Ht Hi. unfold loop_body. rewrite bind_run. cbn [print].
  rewrite bind_run, fetch_page_run by (by eapply body_no_escape).
  rewrite (body_decoded _ _ Hb), Ht. cbn [negb].
  rewrite (body_no_diagnostic _ _ _ Hb), app_nil_r.
  rewrite bind_run. unfold lift at 1. cbn [py_get]. rewrite Hi. cbn [negb].
  rewrite bind_run. cbn. by rewrite <- !app_assoc.
Qed.

(** A pass whose page carries a non-empty list of records that all
    flatten. *)
Lemma loop_body_page limit offset total st d records rows :
  body_of (client offset limit) = Some (PyDict d) →
  d !! "items" = Some (PyList records) →
  records ≠ [] →
  mapM extract_player_data records = Ok rows →
  loop_body client limit offset total st
  = (Ok (if (length records <? limit)%nat then Break
         else Continue (offset + limit) (total + length records)),
     {| players_data := players_data st ++ rows;
        stdout := stdout st
                  ++ [FetchingPage offset;
                      Fetched (length records) (total + length records)]
                  ++ (if (length records <? limit)%nat then [ReachedLastPage] else []);
        requests := requests st ++ [(offset, limit)];
        sleeps := (if (length records <? limit)%nat then sleeps st else S (sleeps st));
        files := files st |}).
Proof.
  intros Hb Hi Hne Hrows. unfold loop_body. rewrite bind_run. cbn [print].
  rewrite bind_run, fetch_page_run by (by eapply body_no_escape).
  rewrite (body_decoded _ _ Hb).
  assert (Ht : truthy (PyDict d) = true).
  { cbn. apply negb_true_iff, Nat.eqb_neq. intros Hs%map_size_empty_iff.
    rewrite Hs, lookup_empty in Hi. discriminate. }
  rewrite Ht. cbn [negb].
  rewrite (body_no_diagnostic _ _ _ Hb), app_nil_r.
  rewrite bind_run. unfold lift at 1. cbn [py_get]. rewrite Hi.
  change (default (PyList []) (Some (PyList records))) with (PyList records).
  assert (Hti : truthy (PyList records) = true) by (by destruct records).
  rewrite Hti. cbn [negb].
  rewrite bind_run. unfold lift at 1. cbn [py_iter].
  rewrite bind_run.
  match goal with |- context [for_each records ?b ?s] =>
    destruct (for_each_extract records s) as (r & rows' & Hrun & _ & Hall & _) end.
  rewrite Hrun. destruct (Hall rows Hrows) as [-> ->].
  rewrite bind_run. unfold lift at 1. cbn [py_len].
  rewrite bind_run. cbn [print players_data stdout requests sleeps files].
  destruct (length records <? limit)%nat.
  - rewrite bind_run. cbn. by rewrite <- !app_assoc.
  - rewrite bind_run. cbn. by rewrite <- !app_assoc.
Qed.

Lemma truthy_decoded_body o :
  truthy (decoded o) = true → body_of o = Some (decoded o) ∧ fetch_failed o = false.
Proof.
  unfold decoded. destruct o as [|status [d|]|status e]; cbn; try done.
  destruct (is_success status); cbn; done.
Qed.

(** Whatever the upstream answers, one pass issues exactly one request,
    touches no file, and goes on to the next offset only after a page that
    did not fail, was not empty and was not short. *)
Lemma loop_body_inv limit offset total st :
  ∃ r st', loop_body client limit offset total st = (r, st')
    ∧ requests st' = requests st ++ [(offset, limit)]
    ∧ files st' = files st
    ∧ (∀ offset' total', r = Ok (Continue offset' total') →
         offset' = offset + limit ∧ ¬ page_stops limit (client offset limit)).
Proof.
  destruct (escapes (client offset limit)) as [e0|] eqn:Hesc.
  { unfold loop_body. rewrite bind_run. cbn [print].
    rewrite bind_run, (fetch_page_escapes _ _ _ e0) by done.
    eexists _, _. split; [reflexivity|]. cbn. done. }
  destruct (truthy (decoded (client offset limit))) eqn:Ht.
  2:{ eexists _, _. split; [by apply loop_body_falsy|]. cbn. done. }
  destruct (truthy_decoded_body _ Ht) as [Hb Hnf].
  unfold loop_body. rewrite bind_run. cbn [print].
  rewrite bind_run, fetch_page_run by done. rewrite Ht. cbn [negb].
  rewrite bind_run. unfold lift at 1.
  destruct (decoded (client offset limit)) as [| | | | | |d] eqn:Hdata;
    try (cbn [py_get]; eexists _, _; split; [reflexivity|]; cbn; done).
  cbn [py_get]. destruct (truthy (default (PyList []) (d !! "items"))) eqn:Hti; cbn [negb].
  2:{ rewrite bind_run. cbn. eexists _, _. split; [reflexivity|]. cbn. done. }
  rewrite bind_run. unfold lift at 1.
  destruct (py_iter (default (PyList []) (d !! "items"))) as [players|e] eqn:Hiter.
  2:{ eexists _, _. split; [reflexivity|]. cbn. done. }
  rewrite bind_run.
  match goal with |- context [for_each players ?b ?s] =>
    destruct (for_each_extract players s) as (r & rows & Hrun & _ & _ & _) end.
  rewrite Hrun. destruct r as [[]|e].
  2:{ eexists _, _. split; [reflexivity|]. cbn. done. }
  rewrite bind_run. unfold lift at 1.
  destruct (py_len (default (PyList []) (d !! "items"))) as [count|e] eqn:Hlen.
  2:{ eexists _, _. split; [reflexivity|]. cbn. done. }
  rewrite bind_run. cbn [print players_data stdout requests sleeps files].
  destruct (count <? limit)%nat eqn:Hcount.
  { rewrite bind_run. cbn. eexists _, _. split; [reflexivity|]. cbn. done. }
  rewrite bind_run. cbn. eexists _, _. split; [reflexivity|]. cbn.
  split; [done|]. split; [done|]. intros o' t' [= <- <-]. split; [done|].
  intros [Hfail|[Hempty|Hshort]].
  - congruence.
  - destruct Hempty as (data & Hbody & [Hfalse|(items & Hrec & Hfalse)]).
    + rewrite Hb in Hbody. apply (inj Some) in Hbody as <-. cbn in Ht, Hfalse.
      congruence.
    + rewrite Hb in Hbody. apply (inj Some) in Hbody as <-.
      cbn in Hrec. apply (inj Some) in Hrec as <-. congruence.
  - destruct Hshort as (data & l & Hbody & Hrec & Hlt).
    rewrite Hb in Hbody. apply (inj Some) in Hbody as <-.
    cbn in Hrec. apply (inj Some) in Hrec. rewrite Hrec in Hlen.
    cbn in Hlen. apply Ok_inj in Hlen as <-.
    apply Nat.ltb_ge in Hcount. lia.
Qed.
End fetcher_facts.

Lemma requests_from_S offset limit n :
  requests_from offset limit (S n)
  = (offset, limit) :: requests_from (offset + limit) limit n.
Proof.
  unfold requests_from. cbn [seq fmap list_fmap]. f_equal.
  - f_equal. lia.
  - rewrite <- fmap_S_seq, <- list_fmap_compose. apply list_fmap_ext.
    intros _ i _. cbn. f_equal. lia.
Qed.

Lemma requests_from_1 offset limit : requests_from offset limit 1 = [(offset, limit)].
Proof. unfold requests_from. cbn. do 2 f_equal. lia. Qed.

Section pagination_facts.
Variable client : nat → nat → http_outcome.

(** The loop ends at the latest with the first page that fails, is empty
    or is short: with fuel for [n + 1] passes it returns or raises, having
    requested no more than the offsets up to that page, one request
    each. *)
Lemma while_true_stops limit n :
  ∀ offset total st fuel,
    page_stops limit (client (offset + n * limit) limit) →
    n < fuel →
    ∃ r st', while_true fuel (loop_body client limit) offset total st = Some (r, st')
      ∧ files st' = files st
      ∧ ∃ k, k ≤ n ∧ requests st' = requests st ++ requests_from offset limit (S k).
Proof.
  induction n as [|n IH]; intros offset total st fuel Hstop Hfuel;
    (destruct fuel as [|fuel]; [lia|]); cbn [while_true];
    destruct (loop_body_inv client limit offset total st)
      as (r & st1 & Hrun & Hreq & Hfiles & Hcont); rewrite Hrun.
  - destruct r as [[|o' t']|e].
    + eexists _, _. split; [reflexivity|]. split; [done|]. exists 0. split; [lia|].
      by rewrite Hreq, requests_from_1.
    + destruct (Hcont o' t' eq_refl) as [_ Hns]. destruct Hns.
      by rewrite Nat.add_0_r in Hstop.
    + eexists _, _. split; [reflexivity|]. split; [done|]. exists 0. split; [lia|].
      by rewrite Hreq, requests_from_1.
  - destruct r as [[|o' t']|e].
    + eexists _, _. split; [reflexivity|]. split; [done|]. exists 0. split; [lia|].
      by rewrite Hreq, requests_from_1.
    + destruct (Hcont o' t' eq_refl) as [-> _].
      destruct (IH (offset + limit) t' st1 fuel) as (r & st' & Hloop & Hf & k & Hk & Hr).
      { replace (offset + limit + n * limit) with (offset + S n * limit) by lia. done. }
      { lia. }
      exists r, st'. split; [done|]. split; [congruence|].
      exists (S k). split; [lia|].
      rewrite Hr, Hreq, <- app_assoc. by rewrite (requests_from_S offset limit (S k)).
    + eexists _, _. split; [reflexivity|]. split; [done|]. exists 0. split; [lia|].
      by rewrite Hreq, requests_from_1.
Qed.

(** C8: when some page of the upstream, the one at offset [n * 100],
    fails, is empty or has fewer than 100 records, [fetch_all_players]
    terminates, by returning or by raising, once it has fuel for [n + 1]
    passes; it has then issued at most [n + 1] requests, one per offset
    0, 100, 200, ... in turn, and none beyond that page. *)
Theorem pagination_terminates (n : nat) (st : state) :
  page_stops 100 (client (n * 100) 100) →
  ∀ fuel, n < fuel →
  ∃ r st', fetch_all_players client fuel st = Some (r, st')
    ∧ files st' = files st
    ∧ ∃ k, k ≤ n ∧ requests st' = requests st ++ requests_from 0 100 (S k).
Proof.
  intros Hstop fuel Hfuel. unfold fetch_all_players. cbn [print].
  match goal with |- context [while_true fuel ?b 0 0 ?s] =>
    destruct (while_true_stops 100 n 0 0 s fuel Hstop Hfuel)
      as (r & st' & Hloop & Hfiles & k & Hk & Hreq) end.
  rewrite Hloop. cbn [files requests] in Hfiles, Hreq.
  destruct r as [[]|e].
  - eexists _, _. split; [reflexivity|]. cbn. split; [done|]. by exists k.
  - eexists _, _. split; [reflexivity|]. split; [done|]. by exists k.
Qed.
End pagination_facts.

Lemma pagination_terminates_witness :
  page_stops 100 (Samples.three_pages (2 * 100) 100)
  ∧ ∃ r st', fetch_all_players Samples.three_pages 3 (init ∅) = Some (r, st')
      ∧ files st' = ∅
      ∧ ∃ k, k ≤ 2 ∧ requests st' = requests_from 0 100 (S k).
Proof.
  assert (H : page_stops 100 (Samples.three_pages (2 * 100) 100)).
  { right; right. eexists _, _. split; [reflexivity|]. split; [reflexivity|].
    rewrite length_replicate. lia. }
  split; [exact H|].
  apply (pagination_terminates Samples.three_pages 2 (init ∅) H 3). lia.
Defined.

Lemma mapM_extract_replicate n player row :
  extract_player_data player = Ok row →
  mapM extract_player_data (replicate n player) = Ok (replicate n row).
Proof.
  intros H. induction n as [|n IH]; [done|].
  cbn [replicate mapM]. rewrite H. cbn [mbind result_bind]. by rewrite IH.
Qed.

Section short_page.
Variable client : nat → nat → http_outcome.

(** A pass on a page with fewer records than the limit ends the loop. *)
Lemma short_page_stops limit offset total st d records rows fuel :
  body_of (client offset limit) = Some (PyDict d) →
  d !! "items" = Some (PyList records) →
  length records < limit →
  mapM extract_player_data records = Ok rows →
  ∃ st', while_true (S fuel) (loop_body client limit) offset total st = Some (Ok (), st')
    ∧ players_data st' = players_data st ++ rows
    ∧ requests st' = requests st ++ [(offset, limit)]
    ∧ files st' = files st.
Proof.
  intros Hb Hi Hlt Hrows. cbn [while_true].
  destruct records as [|p records].
  - rewrite (loop_body_no_items client limit offset total st d Hb).
    + eexists. split; [reflexivity|]. cbn. apply Ok_inj in Hrows as <-.
      by rewrite app_nil_r.
    + cbn. apply negb_true_iff, Nat.eqb_neq. intros Hs%map_size_empty_iff.
      rewrite Hs, lookup_empty in Hi. discriminate.
    + by rewrite Hi.
  - rewrite (loop_body_page client limit offset total st d (p :: records) rows) by done.
    apply Nat.ltb_lt in Hlt. rewrite Hlt.
    eexists. split; [reflexivity|]. done.
Qed.

(** A pass on a page with at least as many records as the limit goes on
    to the next offset. *)
Lemma full_page_continues limit offset total st d records rows fuel :
  body_of (client offset limit) = Some (PyDict d) →
  d !! "items" = Some (PyList records) →
  0 < limit → limit ≤ length records →
  mapM extract_player_data records = Ok rows →
  while_true (S fuel) (loop_body client limit) offset total st
  = while_true fuel (loop_body client limit) (offset + limit) (total + length records)
      {| players_data := players_data st ++ rows;
         stdout := stdout st ++ [FetchingPage offset;
                                 Fetched (length records) (total + length records)];
         requests := requests st ++ [(offset, limit)];
         sleeps := S (sleeps st); files := files st |}.
Proof.
  intros Hb Hi Hpos Hge Hrows. cbn [while_true].
  rewrite (loop_body_page client limit offset total st d records rows); try done.
  - apply Nat.ltb_ge in Hge. rewrite Hge. by rewrite app_nil_r.
  - intros ->. cbn in Hge. lia.
Qed.

(** C2, as amended: a pass of the loop whose page carries fewer records
    than the limit, all of them records the flattener returns on, appends
    the flattened records of that page, in order, and ends the loop with no
    further request.  In particular, against an upstream whose pages at
    offsets 0, 100 and 200 carry 100, 100 and 37 such records,
    [fetch_all_players] returns after exactly the three requests at these
    offsets, with the 237 flattened rows in page order. *)
Theorem short_page_ends_pagination :
  (∀ limit offset total st d records rows fuel,
     body_of (client offset limit) = Some (PyDict d) →
     d !! "items" = Some (PyList records) →
     length records < limit →
     mapM extract_player_data records = Ok rows →
     ∃ st', while_true (S fuel) (loop_body client limit) offset total st
            = Some (Ok (), st')
       ∧ players_data st' = players_data st ++ rows
       ∧ requests st' = requests st ++ [(offset, limit)])
  ∧ (∀ d0 d1 d2 recs0 recs1 recs2 rows0 rows1 rows2 fs fuel,
       body_of (client 0 100) = Some (PyDict d0) → d0 !! "items" = Some (PyList recs0) →
       body_of (client 100 100) = Some (PyDict d1) → d1 !! "items" = Some (PyList recs1) →
       body_of (client 200 100) = Some (PyDict d2) → d2 !! "items" = Some (PyList recs2) →
       length recs0 = 100 → length recs1 = 100 → length recs2 = 37 →
       mapM extract_player_data recs0 = Ok rows0 →
       mapM extract_player_data recs1 = Ok rows1 →
       mapM extract_player_data recs2 = Ok rows2 →
       3 ≤ fuel →
       ∃ st', fetch_all_players client fuel (init fs) = Some (Ok (), st')
         ∧ requests st' = [(0, 100); (100, 100); (200, 100)]
         ∧ players_data st' = rows0 ++ rows1 ++ rows2
         ∧ length (players_data st') = 237
         ∧ files st' = fs).
Proof.
  split.
  - intros limit offset total st d records rows fuel Hb Hi Hlt Hrows.
    destruct (short_page_stops limit offset total st d records rows fuel Hb Hi Hlt Hrows)
      as (st' & H1 & H2 & H3 & _). by exists st'.
  - intros d0 d1 d2 recs0 recs1 recs2 rows0 rows1 rows2 fs fuel
      Hb0 Hi0 Hb1 Hi1 Hb2 Hi2 Hl0 Hl1 Hl2 Hr0 Hr1 Hr2 Hfuel.
    destruct fuel as [|[|[|fuel]]]; try lia.
    unfold fetch_all_players, init. cbn [print players_data stdout requests sleeps files].
    rewrite (full_page_continues 100 0 0 _ d0 recs0 rows0) by (done || lia).
    rewrite (full_page_continues 100 (0 + 100) _ _ d1 recs1 rows1) by (done || lia).
    match goal with |- context [while_true (S fuel) ?b ?o ?t ?s] =>
      destruct (short_page_stops 100 o t s d2 recs2 rows2 fuel)
        as (st' & Hrun & Hpd & Hreq & Hfs); try done; [lia|] end.
    rewrite Hrun. eexists. split; [reflexivity|].
    cbn [players_data requests files stdout sleeps print] in *.
    rewrite Hreq, Hpd. split; [done|]. split; [by rewrite <- app_assoc|].
    split.
    + assert (Hlen : ∀ recs rows, mapM extract_player_data recs = Ok rows →
                length rows = length recs).
      { induction recs as [|p recs IH]; intros rows; cbn [mapM].
        - by intros [= <-].
        - destruct (extract_player_data p); [|done]. cbn [mbind result_bind].
          destruct (mapM extract_player_data recs) eqn:E; [|done].
          cbn. intros [= <-]. cbn. by rewrite (IH _ eq_refl). }
      rewrite !length_app, (Hlen _ _ Hr0), (Hlen _ _ Hr1), (Hlen _ _ Hr2), Hl0, Hl1, Hl2. reflexivity.
    + exact Hfs.
Qed.
End short_page.

Lemma short_page_ends_pagination_witness :
  (∃ st', while_true 1 (loop_body Samples.three_pages 100) 200 200 (init ∅)
          = Some (Ok (), st')
     ∧ length (players_data st') = 37
     ∧ requests st' = [(200, 100)])
  ∧ ∃ st', fetch_all_players Samples.three_pages 3 (init ∅) = Some (Ok (), st')
      ∧ requests st' = [(0, 100); (100, 100); (200, 100)]
      ∧ length (players_data st') = 237
      ∧ files st' = ∅.
Proof.
  assert (Hrow : extract_player_data (PyDict ∅) = Ok (flat ∅)).
  { apply extract_well_shaped. reflexivity. }
  destruct (short_page_ends_pagination Samples.three_pages) as [Hone Hall].
  split.
  - destruct (Hone 100 200 200 (init ∅) {[ "items" := PyList (replicate 37 (PyDict ∅)) ]}
                (replicate 37 (PyDict ∅)) (replicate 37 (flat ∅)) 0)
      as (st' & Hrun & Hpd & Hreq).
    + reflexivity.
    + reflexivity.
    + rewrite length_replicate. lia.
    + by apply mapM_extract_replicate.
    + exists st'. split; [exact Hrun|]. split; [|exact Hreq].
      rewrite Hpd. cbn [init players_data app]. apply length_replicate.
  - destruct (Hall {[ "items" := PyList (replicate 100 (PyDict ∅)) ]}
                   {[ "items" := PyList (replicate 100 (PyDict ∅)) ]}
                   {[ "items" := PyList (replicate 37 (PyDict ∅)) ]}
                   (replicate 100 (PyDict ∅)) (replicate 100 (PyDict ∅))
                   (replicate 37 (PyDict ∅))
                   (replicate 100 (flat ∅)) (replicate 100 (flat ∅))
                   (replicate 37 (flat ∅)) ∅ 3
                   eq_refl eq_refl eq_refl eq_refl eq_refl eq_refl
                   (length_replicate 100 _) (length_replicate 100 _)
                   (length_replicate 37 _)
                   (mapM_extract_replicate 100 _ _ Hrow)
                   (mapM_extract_replicate 100 _ _ Hrow)
                   (mapM_extract_replicate 37 _ _ Hrow)
                   (le_n 3))
      as (st' & Hrun & Hreq & _ & Hlen & Hfs).
    exists st'. split; [exact Hrun|]. split; [exact Hreq|]. split; [exact Hlen|exact Hfs].
Defined.

(** C2, as stated, fails: a page of three records, fewer than the limit,
    whose second record is a number.  The loop appends the row of the first
    record and raises; the third record is never flattened. *)
Lemma short_page_with_bad_record_raises :
  body_of (Samples.spoiled 0 100)
  = Some (PyDict {[ "items" := PyList [PyDict ∅; PyInt 7; PyDict ∅] ]})
  ∧ length [PyDict ∅; PyInt 7; PyDict ∅] < 100
  ∧ ∀ fuel, ∃ st',
      fetch_all_players Samples.spoiled (S fuel) (init ∅) = Some (Raise AttributeError, st')
      ∧ length (players_data st') = 1
      ∧ requests st' = [(0, 100)].
Proof.
  split; [reflexivity|]. split; [cbn; lia|]. intros fuel.
  eexists. split; [vm_compute; reflexivity|]. split; reflexivity.
Qed.

Section falsy_body.
Variable client : nat → nat → http_outcome.

(** C9: a page that is fetched and decoded without error but whose value
    is falsy ends the loop the way a failed fetch does: no row is
    appended, the loop stops after this one request, and the failure
    message for this offset is printed.  The only difference from a fetch
    that really failed, at the same point against another upstream, is
    that [fetch_page] has printed no error of its own. *)
Theorem falsy_body_treated_as_failure limit offset total st status data fuel :
  client offset limit = Response status (Some data) →
  is_success status = true →
  truthy data = false →
  ∃ st', while_true (S fuel) (loop_body client limit) offset total st = Some (Ok (), st')
    ∧ players_data st' = players_data st
    ∧ requests st' = requests st ++ [(offset, limit)]
    ∧ stdout st' = stdout st ++ [FetchingPage offset; FailedFetch offset]
    ∧ sleeps st' = sleeps st ∧ files st' = files st
    ∧ ∀ failing : nat → nat → http_outcome,
        fetch_failed (failing offset limit) = true →
        ∃ st'', while_true (S fuel) (loop_body failing limit) offset total st
                = Some (Ok (), st'')
          ∧ players_data st'' = players_data st'
          ∧ requests st'' = requests st'
          ∧ sleeps st'' = sleeps st' ∧ files st'' = files st'
          ∧ stdout st'' = stdout st ++ [FetchingPage offset]
                          ++ fetch_diagnostic offset (failing offset limit)
                          ++ [FailedFetch offset]
          ∧ fetch_diagnostic offset (failing offset limit) ≠ [].
Proof.
  intros Hpage Hok Hfalsy.
  assert (Hdec : decoded (client offset limit) = data).
  { unfold decoded. rewrite Hpage. cbn. by rewrite Hok. }
  assert (Hdiag : fetch_diagnostic offset (client offset limit) = []).
  { rewrite Hpage. cbn. by rewrite Hok. }
  cbn [while_true]. rewrite loop_body_falsy; [|by rewrite Hpage|by rewrite Hdec].
  rewrite Hdiag. eexists. split; [reflexivity|]. cbn.
  split_and!; try done.
  intros failing Hfail.
  rewrite loop_body_falsy; [|by apply failed_no_escape|by rewrite failed_decoded].
  eexists. split; [reflexivity|]. cbn. split_and!; try done.
  destruct (failing offset limit) as [|st1 [b|]|st1 e]; cbn in *; try done.
  - by destruct (is_success st1).
  - by destruct (is_success st1).
  - by destruct (is_success st1).
Qed.
End falsy_body.

Lemma falsy_body_treated_as_failure_witness :
  Samples.empty_object 0 100 = Response 200 (Some (PyDict ∅))
  ∧ ∃ st', while_true 1 (loop_body Samples.empty_object 100) 0 0 (init ∅)
           = Some (Ok (), st')
      ∧ players_data st' = []
      ∧ requests st' = [(0, 100)]
      ∧ stdout st' = [FetchingPage 0; FailedFetch 0].
Proof.
  split; [reflexivity|].
  destruct (falsy_body_treated_as_failure Samples.empty_object 100 0 0 (init ∅)
              200 (PyDict ∅) 0 eq_refl eq_refl eq_refl)
    as (st' & Hrun & Hpd & Hreq & Hout & _).
  exists st'. split; [exact Hrun|]. split; [exact Hpd|]. split; [exact Hreq|exact Hout].
Defined.

(** ** Properties of the writer *)

(** *** The order of the header *)

Lemma str_compare_refl a : String.compare a a = Eq.
Proof. by apply OrderedTypeEx.String_as_OT.cmp_eq. Qed.

Lemma str_lt_trans a b c : str_lt a b → str_lt b c → str_lt a c.
Proof.
  unfold str_lt, String.ltb. intros Hab Hbc.
  destruct (String.compare a b) eqn:Eab; try discriminate.
  destruct (String.compare b c) eqn:Ebc; try discriminate.
  apply OrderedTypeEx.String_as_OT.cmp_lt in Eab, Ebc.
  pose proof (OrderedTypeEx.String_as_OT.lt_trans _ _ _ Eab Ebc) as Hac.
  apply OrderedTypeEx.String_as_OT.cmp_lt in Hac.
  unfold OrderedTypeEx.String_as_OT.cmp in Hac. by rewrite Hac.
Qed.

Lemma str_le_lt_eq a b : str_le a b ↔ str_lt a b ∨ a = b.
Proof.
  unfold str_le, str_lt, String.leb, String.ltb. split.
  - destruct (String.compare a b) eqn:E; try done; [|by left].
    right. by apply String.compare_eq_iff.
  - intros [H| ->]; [by destruct (String.compare a b)|].
    by rewrite str_compare_refl.
Qed.

Lemma str_lt_irrefl a : ¬ str_lt a a.
Proof. unfold str_lt, String.ltb. by rewrite str_compare_refl. Qed.

#[local] Instance str_le_total : Total str_le.
Proof. intros a b. apply String.leb_total. Qed.

#[local] Instance str_le_trans : Transitive str_le.
Proof.
  intros a b c. rewrite !str_le_lt_eq. intros [Hab| ->] [Hbc| ->]; eauto.
  left. by eapply str_lt_trans.
Qed.

Lemma py_sorted_elem l c : c ∈ py_sorted l ↔ c ∈ l.
Proof. unfold py_sorted. by rewrite merge_sort_Permutation. Qed.

Lemma py_sorted_strict l : NoDup l → StronglySorted str_lt (py_sorted l).
Proof.
  intros Hnd. unfold py_sorted.
  assert (Hnd' : NoDup (merge_sort str_le l)) by (by rewrite merge_sort_Permutation).
  pose proof (StronglySorted_merge_sort str_le l) as Hs.
  induction Hs as [|a l' Hs IH Hall]; [constructor|].
  apply NoDup_cons in Hnd' as [Hnotin Hnd']. constructor; [by apply IH|].
  apply Forall_forall. intros b Hb.
  rewrite Forall_forall in Hall. specialize (Hall b Hb).
  apply str_le_lt_eq in Hall as [Hlt| ->]; [done|]. by destruct Hnotin.
Qed.

(** Two strictly sorted lists with the same elements are equal: the sorted
    header of a set of columns is unique. *)
Lemma strictly_sorted_unique l1 l2 :
  StronglySorted str_lt l1 → StronglySorted str_lt l2 →
  (∀ c, c ∈ l1 ↔ c ∈ l2) → l1 = l2.
Proof.
  intros H1. revert l2. induction H1 as [|a l1 H1 IH Ha]; intros l2 H2 Heq.
  - destruct l2 as [|b l2]; [done|]. exfalso.
    apply (elem_of_nil b), Heq, elem_of_cons. by left.
  - destruct H2 as [|b l2 H2 Hb].
    { exfalso. apply (elem_of_nil a), Heq, elem_of_cons. by left. }
    rewrite Forall_forall in Ha, Hb.
    assert (Hab : a = b).
    { assert (Ha2 : a ∈ b :: l2) by (apply Heq, elem_of_cons; by left).
      assert (Hb1 : b ∈ a :: l1) by (apply Heq, elem_of_cons; by left).
      apply elem_of_cons in Ha2 as [?|Ha2]; [done|].
      apply elem_of_cons in Hb1 as [?|Hb1]; [done|].
      destruct (str_lt_irrefl a). eapply str_lt_trans; [by apply Ha|by apply Hb]. }
    subst b. f_equal. apply IH; [done|]. intros c. split; intros Hc.
    + assert (Hc2 : c ∈ a :: l2) by (apply Heq, elem_of_cons; by right).
      apply elem_of_cons in Hc2 as [->|Hc2]; [|done].
      destruct (str_lt_irrefl a). by apply Ha.
    + assert (Hc1 : c ∈ a :: l1) by (apply Heq, elem_of_cons; by right).
      apply elem_of_cons in Hc1 as [->|Hc1]; [|done].
      destruct (str_lt_irrefl a). by apply Hb.
Qed.

Lemma column_union_from (acc : gset string) rows c :
  c ∈ foldl (λ acc player, acc ∪ dom player) acc rows
  ↔ c ∈ acc ∨ ∃ row : gmap string pyval, row ∈ rows ∧ is_Some (row !! c).
Proof.
  revert acc. induction rows as [|r rows IH]; intros acc; cbn [foldl].
  - split; [by left|]. intros [H|(row & Hin & _)]; [done|]. by apply elem_of_nil in Hin.
  - rewrite IH, elem_of_union, elem_of_dom. split.
    + intros [[H|H]|(row & Hin & Hc)]; [by left| |].
      * right. exists r. split; [left|done].
      * right. exists row. split; [by right|done].
    + intros [H|(row & [->|Hin]%elem_of_cons & Hc)]; [by left; left|by left; right|].
      right. by exists row.
Qed.

Lemma header_elem rows c :
  c ∈ header rows ↔ ∃ row, row ∈ rows ∧ is_Some (row !! c).
Proof.
  unfold header, column_union. rewrite py_sorted_elem, elem_of_elements, column_union_from.
  split; [intros [H|H]; [set_solver|done]|by right].
Qed.

Lemma header_sorted rows : StronglySorted str_lt (header rows).
Proof. apply py_sorted_strict, NoDup_elements. Qed.

(** *** Rows and files *)

Lemma dict_to_list_covered cols (row : gmap string pyval) :
  (∀ c, is_Some (row !! c) → c ∈ cols) →
  dict_to_list cols row = Ok (record_of cols row).
Proof.
  intros Hcov. unfold dict_to_list. case_decide as Hw; [done|].
  destruct Hw. apply set_eq. intros c.
  rewrite elem_of_difference, elem_of_dom, elem_of_list_to_set. split.
  - intros [H1 H2]. destruct H2. by apply Hcov.
  - intros H. by apply elem_of_empty in H.
Qed.

Lemma dict_to_list_extra cols (row : gmap string pyval) c :
  is_Some (row !! c) → c ∉ cols → dict_to_list cols row = Raise ValueError.
Proof.
  intros Hc Hnot. unfold dict_to_list. case_decide as Hw; [|done].
  assert (Hin : c ∈ (∅ : gset string)); [|by apply elem_of_empty in Hin].
  rewrite <- Hw, elem_of_difference, elem_of_dom, elem_of_list_to_set. done.
Qed.

Lemma partial_alter_some {A} (g : option A → A) (k : string) (m : gmap string A) :
  partial_alter (λ c, Some (g c)) k m = <[k := g (m !! k)]> m.
Proof.
  apply map_eq. intros i. destruct (decide (i = k)) as [->|Hne].
  - by rewrite lookup_partial_alter_eq, lookup_insert_eq.
  - by rewrite lookup_partial_alter_ne, lookup_insert_ne.
Qed.

Lemma row_encodable_lookup (row : gmap string pyval) c v :
  row_encodable row = true → row !! c = Some v →
  utf8_encodable c = true ∧ encodable v = true.
Proof.
  unfold row_encodable. rewrite forallb_forall. intros H Hc.
  apply elem_of_map_to_list in Hc. apply list_elem_of_In in Hc.
  apply H in Hc. by apply andb_true_iff in Hc.
Qed.

Lemma rows_encodable_elem rows row :
  rows_encodable rows = true → row ∈ rows → row_encodable row = true.
Proof.
  unfold rows_encodable. rewrite forallb_forall. intros H Hrow.
  apply H. by apply list_elem_of_In.
Qed.

Lemma header_encodable rows :
  rows_encodable rows = true → forallb encodable (PyStr <$> header rows) = true.
Proof.
  intros H. apply forallb_forall. intros v Hv. apply list_elem_of_In in Hv.
  apply list_elem_of_fmap in Hv. destruct Hv as (c & -> & Hc).
  apply header_elem in Hc. destruct Hc as (row & Hrow & [w Hw]).
  apply (row_encodable_lookup row c w); [by eapply rows_encodable_elem|done].
Qed.

Lemma record_encodable cols (row : gmap string pyval) :
  row_encodable row = true → forallb encodable (record_of cols row) = true.
Proof.
  intros H. apply forallb_forall. intros v Hv. apply list_elem_of_In in Hv.
  apply list_elem_of_fmap in Hv. destruct Hv as (c & -> & Hc).
  destruct (row !! c) as [w|] eqn:E; cbn; [|done].
  by eapply row_encodable_lookup.
Qed.

Lemma writerows_run path cols (rows : list (gmap string pyval)) st content :
  (∀ row c, row ∈ rows → is_Some (row !! c) → c ∈ cols) →
  rows_encodable rows = true →
  files st !! path = Some content →
  for_each rows (λ rowdict,
    record ← lift (dict_to_list cols rowdict);
    writerow path record) st
  = (Ok (),
     {| players_data := players_data st; stdout := stdout st;
        requests := requests st; sleeps := sleeps st;
        files := <[path := content ++ (record_of cols <$> rows)]> (files st) |}).
Proof.
  revert st content. induction rows as [|row rows IH]; intros st content Hcov Henc Hfile.
  - cbn. rewrite app_nil_r, insert_id by done. by destruct st.
  - cbn [for_each]. unfold mbind at 1, M_bind at 1. unfold mbind at 1, M_bind at 1.
    unfold lift at 1. rewrite dict_to_list_covered.
    2:{ intros c Hc. apply (Hcov row c); [by left|done]. }
    cbn [rows_encodable forallb] in Henc. apply andb_true_iff in Henc.
    destruct Henc as [Hrow Hrest].
    unfold writerow at 1. rewrite (record_encodable cols row Hrow).
    unfold with_file at 1.
    rewrite (IH _ (content ++ [record_of cols row])).
    + cbn [players_data stdout requests sleeps files]. do 2 f_equal.
      rewrite partial_alter_some, insert_insert_eq.
      cbn [fmap list_fmap]. by rewrite <- app_assoc.
    + intros r c Hr. apply Hcov. by right.
    + exact Hrest.
    + cbn [files]. rewrite partial_alter_some, lookup_insert_eq, Hfile. reflexivity.
Qed.

Lemma save_to_csv_empty filename st :
  players_data st = [] →
  save_to_csv filename st
  = (Ok (), {| players_data := players_data st; stdout := stdout st ++ [NoDataToSave];
               requests := requests st; sleeps := sleeps st; files := files st |}).
Proof.
  intros H. unfold save_to_csv. unfold mbind at 1, M_bind at 1.
  unfold get_players. rewrite H. cbn [length Nat.eqb negb]. unfold print.
  by rewrite H.
Qed.

Lemma save_to_csv_rows filename st :
  players_data st ≠ [] →
  rows_encodable (players_data st) = true →
  save_to_csv filename st
  = (Ok (),
     {| players_data := players_data st;
        stdout := stdout st ++ [DataSaved (py_path filename);
                                TotalColumns (length (header (players_data st)));
                                TotalRows (length (players_data st))];
        requests := requests st; sleeps := sleeps st;
        files := <[py_path filename := table (players_data st)]> (files st) |}).
Proof.
  intros Hne Henc. unfold save_to_csv. unfold mbind at 1, M_bind at 1.
  unfold get_players.
  destruct (players_data st) as [|r rows] eqn:Hrows; [done|].
  cbn [length Nat.eqb negb].
  fold (column_union (r :: rows)). fold (header (r :: rows)).
  generalize (py_path filename). intros path.
  unfold mbind at 1, M_bind at 1. unfold with_file at 1.
  unfold mbind at 1, M_bind at 1. unfold writerow at 1.
  rewrite (header_encodable (r :: rows) Henc). unfold with_file at 1.
  unfold mbind at 1, M_bind at 1.
  rewrite (writerows_run path (header (r :: rows)) (r :: rows) _
             [PyStr <$> header (r :: rows)]).
  - unfold mbind at 1, M_bind at 1. cbn [print players_data stdout requests sleeps files].
    unfold mbind, M_bind. cbn [print players_data stdout requests sleeps files].
    rewrite Hrows. unfold print. cbn [players_data stdout requests sleeps files].
    do 2 f_equal.
    + by rewrite <- !app_assoc.
    + rewrite !partial_alter_some, !insert_insert_eq. reflexivity.
  - intros row c Hrow Hc. apply header_elem. by exists row.
  - exact Henc.
  - cbn [files]. rewrite !partial_alter_some, !lookup_insert_eq. reflexivity.
Qed.

(** C1, as amended: for a non-empty row set whose column names and string
    values can all be encoded as UTF-8, [save_to_csv] returns having
    written, to the file it opens (the file name as [Path] normalises it),
    the header followed by one record per row, in row order; the header is
    strictly sorted in the order of [sorted] and holds exactly the columns
    that occur in some row; a record holds, at each header position, the
    row's value for that column, or the empty string when the row lacks the
    column.  For the empty row set it prints the notice and leaves every
    file as it was. *)
Theorem save_to_csv_writes (filename : string) (st : state) :
  (players_data st ≠ [] →
   rows_encodable (players_data st) = true →
     ∃ cols st', save_to_csv filename st = (Ok (), st')
       ∧ files st' !! py_path filename
         = Some ((PyStr <$> cols)
                 :: ((λ row : gmap string pyval,
                        (λ c, default (PyStr "") (row !! c)) <$> cols)
                     <$> players_data st))
       ∧ StronglySorted str_lt cols
       ∧ (∀ c, c ∈ cols ↔ ∃ row, row ∈ players_data st ∧ is_Some (row !! c))
       ∧ players_data st' = players_data st)
  ∧ (players_data st = [] →
       ∃ st', save_to_csv filename st = (Ok (), st')
         ∧ files st' = files st
         ∧ stdout st' = stdout st ++ [NoDataToSave]).
Proof.
  split.
  - intros Hne Henc. eexists (header (players_data st)), _.
    split; [by apply save_to_csv_rows|]. cbn [files players_data].
    split; [by rewrite lookup_insert_eq|].
    split; [apply header_sorted|]. split; [apply header_elem|done].
  - intros Hnil. eexists. split; [by apply save_to_csv_empty|]. done.
Qed.

(** C1, as stated, fails: a row set whose second row holds a lone surrogate
    as a value.  [save_to_csv] raises when it comes to encode that row, and
    leaves the header and the first record in the file. *)
Lemma save_to_csv_raises_on_surrogate :
  players_data Samples.surrogate_rows ≠ []
  ∧ ∃ st', save_to_csv "out.csv" Samples.surrogate_rows = (Raise UnicodeEncodeError, st')
      ∧ files st' !! "out.csv"
        = Some [[PyStr "firstName"; PyStr "id"; PyStr "stat_pac"];
                [PyStr ""; PyInt 1; PyInt 90]].
Proof.
  split; [discriminate|]. eexists. split; [vm_compute; reflexivity|].
  vm_compute. reflexivity.
Qed.

Lemma two_rows_columns c :
  (∃ row, row ∈ players_data Samples.two_rows ∧ is_Some (row !! c))
  ↔ c ∈ ["id"; "stat_div"; "stat_pac"].
Proof.
  cbn [Samples.two_rows players_data]. rewrite !elem_of_cons. split.
  - intros (row & Hrow & [v Hv]).
    apply elem_of_cons in Hrow. destruct Hrow as [Hrow|Hrow].
    { subst row. unfold Samples.row_pac in Hv.
      destruct (decide (c = "id")) as [->|Hid]; [by left|].
      rewrite lookup_insert_ne in Hv by done.
      destruct (decide (c = "stat_pac")) as [->|Hpac]; [by right; right; left|].
      rewrite lookup_singleton_ne in Hv by done. discriminate Hv. }
    apply elem_of_cons in Hrow. destruct Hrow as [Hrow|Hrow].
    { subst row. unfold Samples.row_div in Hv.
      destruct (decide (c = "id")) as [->|Hid]; [by left|].
      rewrite lookup_insert_ne in Hv by done.
      destruct (decide (c = "stat_div")) as [->|Hdiv]; [by right; left|].
      rewrite lookup_singleton_ne in Hv by done. discriminate Hv. }
    by apply elem_of_nil in Hrow.
  - intros [->|[->|[->|Hc]]].
    + exists Samples.row_pac. split; [by left|]. exists (PyInt 1). reflexivity.
    + exists Samples.row_div. split; [right; by left|]. exists (PyInt 80). reflexivity.
    + exists Samples.row_pac. split; [by left|]. exists (PyInt 90). reflexivity.
    + by apply elem_of_nil in Hc.
Qed.

Lemma save_to_csv_writes_witness :
  players_data Samples.two_rows ≠ []
  ∧ rows_encodable (players_data Samples.two_rows) = true
  ∧ players_data (init ∅) = []
  ∧ (∃ st', save_to_csv "out.csv" Samples.two_rows = (Ok (), st')
       ∧ files st' !! "out.csv"
         = Some [[PyStr "id"; PyStr "stat_div"; PyStr "stat_pac"];
                 [PyInt 1; PyStr ""; PyInt 90];
                 [PyInt 2; PyInt 80; PyStr ""]])
  ∧ (∃ st', save_to_csv "out.csv" (init ∅) = (Ok (), st') ∧ files st' = ∅).
Proof.
  split; [discriminate|]. split; [reflexivity|]. split; [reflexivity|].
  destruct (save_to_csv_writes "out.csv" Samples.two_rows) as [Hrows _].
  destruct (save_to_csv_writes "out.csv" (init ∅)) as [_ Hnone].
  split.
  - destruct (Hrows ltac:(discriminate) eq_refl)
      as (cols & st' & Hrun & Hfiles & Hsorted & Hcols & _).
    exists st'. split; [exact Hrun|].
    assert (Hc : cols = ["id"; "stat_div"; "stat_pac"]).
    { apply strictly_sorted_unique; [exact Hsorted| |].
      - repeat constructor.
      - intros c. rewrite Hcols. apply two_rows_columns. }
    change (py_path "out.csv") with "out.csv" in Hfiles.
    rewrite Hfiles, Hc. reflexivity.
  - destruct (Hnone eq_refl) as (st' & Hrun & Hfiles & _).
    exists st'. split; [exact Hrun|exact Hfiles].
Defined.

(** ** The whole run *)

Section run_facts.
Variable client : nat → nat → http_outcome.

(** X15: when the first fetch fails in a way [fetch_page] catches (the
    transport fails, the status is not a success, or the body is text that
    is not JSON), the run returns after that single request with no row
    collected and every file as it was; it has printed the error of
    [fetch_page], the failure of the loop for offset 0 and the notice that
    there is nothing to save. *)
Theorem first_fetch_failure (fs : gmap string (list (list pyval))) (fuel : nat) :
  fetch_failed (client 0 100) = true →
  ∃ st', run client (S fuel) (init fs) = Some (Ok (), st')
    ∧ players_data st' = []
    ∧ files st' = fs
    ∧ requests st' = [(0, 100)]
    ∧ stdout st' = [StartingFetch; FetchingPage 0]
                   ++ fetch_diagnostic 0 (client 0 100)
                   ++ [FailedFetch 0; TotalScraped 0; NoDataToSave]
    ∧ (fetch_diagnostic 0 (client 0 100) = [HttpErrorAt 0]
       ∨ fetch_diagnostic 0 (client 0 100) = [JsonErrorAt 0]).
Proof.
  intros Hfail. unfold run, fetch_all_players, init.
  cbn [print players_data stdout requests sleeps files while_true].
  rewrite loop_body_falsy; [|by apply failed_no_escape|by rewrite failed_decoded].
  cbn [print players_data stdout requests sleeps files length].
  rewrite save_to_csv_empty by done.
  eexists. split; [reflexivity|]. cbn [players_data stdout requests sleeps files].
  split_and!; try done.
  - cbn [app]. by rewrite <- !app_assoc.
  - destruct (client 0 100) as [|status [b|]|status e]; cbn in *.
    + by left.
    + destruct (is_success status); [done|by left].
    + destruct (is_success status); [by right|by left].
    + destruct (is_success status); [done|by left].
Qed.

(** C7, where the code departs from it: when the first response is a success
    whose body makes [response.json()] raise an exception [fetch_page] does
    not catch (bytes that are not UTF-8, for one), the exception leaves
    [run].  No row is collected and no file is written, but nothing is
    printed after the fetch message of the page: there is no diagnostic, and
    the loop does not stop by itself. *)
Theorem undecodable_body_escapes_run (fs : gmap string (list (list pyval)))
    (fuel : nat) (e : exn) :
  escapes (client 0 100) = Some e →
  ∃ st', run client (S fuel) (init fs) = Some (Raise e, st')
    ∧ players_data st' = []
    ∧ files st' = fs
    ∧ requests st' = [(0, 100)]
    ∧ stdout st' = [StartingFetch; FetchingPage 0].
Proof.
  intros Hesc. unfold run, fetch_all_players, init.
  cbn [print players_data stdout requests sleeps files while_true].
  unfold loop_body. rewrite bind_run. cbn [print].
  rewrite bind_run, (fetch_page_escapes client _ _ _ e) by done.
  eexists. split; [reflexivity|]. cbn. done.
Qed.
End run_facts.

Lemma undecodable_body_escapes_run_witness :
  escapes (Samples.bad_utf8 0 100) = Some UnicodeDecodeError
  ∧ ∃ st', run Samples.bad_utf8 1 (init ∅) = Some (Raise UnicodeDecodeError, st')
      ∧ players_data st' = [] ∧ files st' = ∅
      ∧ stdout st' = [StartingFetch; FetchingPage 0].
Proof.
  split; [reflexivity|].
  destruct (undecodable_body_escapes_run Samples.bad_utf8 ∅ 0 UnicodeDecodeError eq_refl)
    as (st' & Hrun & Hpd & Hfs & _ & Hout).
  exists st'. repeat split; assumption.
Defined.

Lemma first_fetch_failure_witness :
  fetch_failed (Samples.unreachable 0 100) = true
  ∧ fetch_failed (Samples.unavailable 0 100) = true
  ∧ fetch_failed (Samples.garbled 0 100) = true
  ∧ (∃ st', run Samples.unreachable 1 (init ∅) = Some (Ok (), st')
       ∧ players_data st' = [] ∧ files st' = ∅
       ∧ stdout st' = [StartingFetch; FetchingPage 0; HttpErrorAt 0;
                       FailedFetch 0; TotalScraped 0; NoDataToSave])
  ∧ (∃ st', run Samples.unavailable 1 (init ∅) = Some (Ok (), st')
       ∧ players_data st' = [] ∧ files st' = ∅)
  ∧ (∃ st', run Samples.garbled 1 (init ∅) = Some (Ok (), st')
       ∧ players_data st' = [] ∧ files st' = ∅
       ∧ stdout st' = [StartingFetch; FetchingPage 0; JsonErrorAt 0;
                       FailedFetch 0; TotalScraped 0; NoDataToSave]).
Proof.
  split; [reflexivity|]. split; [reflexivity|]. split; [reflexivity|].
  destruct (first_fetch_failure Samples.unreachable ∅ 0 eq_refl)
    as (st1 & Hrun1 & Hpd1 & Hfs1 & _ & Hout1 & _).
  destruct (first_fetch_failure Samples.unavailable ∅ 0 eq_refl)
    as (st2 & Hrun2 & Hpd2 & Hfs2 & _).
  destruct (first_fetch_failure Samples.garbled ∅ 0 eq_refl)
    as (st3 & Hrun3 & Hpd3 & Hfs3 & _ & Hout3 & _).
  split; [exists st1; repeat split; assumption|].
  split; [exists st2; repeat split; assumption|].
  exists st3; repeat split; assumption.
Defined.

(** ** Further properties of the pagination loop *)

Section loop_effects.
Variable client : nat → nat → http_outcome.

(** What a pass can do to the state, whatever the upstream answers: one
    request, rows appended at the end, one pause exactly when the loop goes
    on, no file touched. *)
Lemma loop_body_effects limit offset total st :
  ∃ r st' rows, loop_body client limit offset total st = (r, st')
    ∧ requests st' = requests st ++ [(offset, limit)]
    ∧ files st' = files st
    ∧ players_data st' = players_data st ++ rows
    ∧ sleeps st' = (if r is Ok (Continue _ _) then S (sleeps st) else sleeps st)
    ∧ (∀ offset' total', r = Ok (Continue offset' total') → offset' = offset + limit).
Proof.
  destruct (escapes (client offset limit)) as [e0|] eqn:Hesc.
  { unfold loop_body. rewrite bind_run. cbn [print].
    rewrite bind_run, (fetch_page_escapes client _ _ _ e0) by done.
    eexists _, _, []. split; [reflexivity|]. cbn. rewrite app_nil_r. done. }
  unfold loop_body. rewrite bind_run. cbn [print].
  rewrite bind_run, fetch_page_run by done.
  destruct (truthy (decoded (client offset limit))) eqn:Ht; cbn [negb].
  2:{ rewrite bind_run. cbn. eexists _, _, []. split; [reflexivity|]. cbn.
      rewrite app_nil_r. done. }
  rewrite bind_run. unfold lift at 1.
  destruct (decoded (client offset limit)) as [| | | | | |d] eqn:Hdata;
    try (cbn [py_get]; eexists _, _, []; split; [reflexivity|]; cbn;
         rewrite app_nil_r; done).
  cbn [py_get]. destruct (truthy (default (PyList []) (d !! "items"))) eqn:Hti; cbn [negb].
  2:{ rewrite bind_run. cbn. eexists _, _, []. split; [reflexivity|]. cbn.
      rewrite app_nil_r. done. }
  rewrite bind_run. unfold lift at 1.
  destruct (py_iter (default (PyList []) (d !! "items"))) as [players|e] eqn:Hiter.
  2:{ eexists _, _, []. split; [reflexivity|]. cbn. rewrite app_nil_r. done. }
  rewrite bind_run.
  match goal with |- context [for_each players ?b ?s] =>
    destruct (for_each_extract players s) as (r & rows & Hrun & _ & _ & _) end.
  rewrite Hrun. destruct r as [[]|e].
  2:{ eexists _, _, rows. split; [reflexivity|]. cbn. done. }
  rewrite bind_run. unfold lift at 1.
  destruct (py_len (default (PyList []) (d !! "items"))) as [count|e] eqn:Hlen.
  2:{ eexists _, _, rows. split; [reflexivity|]. cbn. done. }
  rewrite bind_run. cbn [print players_data stdout requests sleeps files].
  destruct (count <? limit)%nat eqn:Hcount.
  { rewrite bind_run. cbn. eexists _, _, rows. split; [reflexivity|]. cbn. done. }
  rewrite bind_run. cbn. eexists _, _, rows. split; [reflexivity|]. cbn.
  split_and!; try done. by intros o' t' [= <- <-].
Qed.

Lemma while_true_trace limit fuel :
  ∀ offset total st r st',
    while_true fuel (loop_body client limit) offset total st = Some (r, st') →
    ∃ k rows, 1 ≤ k ≤ fuel
      ∧ requests st' = requests st ++ requests_from offset limit k
      ∧ sleeps st' = sleeps st + (k - 1)
      ∧ files st' = files st
      ∧ players_data st' = players_data st ++ rows.
Proof.
  induction fuel as [|fuel IH]; intros offset total st r st' Hrun; [done|].
  cbn [while_true] in Hrun.
  destruct (loop_body_effects limit offset total st)
    as (r1 & st1 & rows1 & Hbody & Hreq & Hfiles & Hpd & Hsl & Hcont).
  rewrite Hbody in Hrun. destruct r1 as [[|o' t']|e].
  - apply (inj Some) in Hrun. injection Hrun as <- <-.
    exists 1, rows1. rewrite requests_from_1. split_and!; try done; lia.
  - cbn in Hsl. rewrite (Hcont o' t' eq_refl) in Hrun.
    destruct (IH _ _ _ _ _ Hrun) as (k & rows & Hk & Hreq' & Hsl' & Hfiles' & Hpd').
    exists (S k), (rows1 ++ rows). rewrite requests_from_S.
    split_and!; [lia|lia| | | |].
    + by rewrite Hreq', Hreq, <- app_assoc.
    + rewrite Hsl', Hsl. lia.
    + congruence.
    + by rewrite Hpd', Hpd, <- app_assoc.
  - apply (inj Some) in Hrun. injection Hrun as <- <-.
    exists 1, rows1. rewrite requests_from_1. split_and!; try done; lia.
Qed.

(** X1: whatever the upstream does, and whether [fetch_all_players] returns or
    raises: the requests it has issued are those of the offsets 0, 100,
    200, ... in turn, each exactly once and each with limit 100 (no retry,
    no offset skipped); it has paused exactly once between two consecutive
    requests; it has only appended rows to [players_data]; and it has
    touched no file. *)
Theorem fetch_requests_consecutive_offsets fuel st r st' :
  fetch_all_players client fuel st = Some (r, st') →
  ∃ k rows, 1 ≤ k ≤ fuel
    ∧ requests st' = requests st ++ requests_from 0 100 k
    ∧ sleeps st' = sleeps st + (k - 1)
    ∧ files st' = files st
    ∧ players_data st' = players_data st ++ rows.
Proof.
  unfold fetch_all_players. cbn [print]. intros Hrun.
  match type of Hrun with context [while_true fuel ?b 0 0 ?s] =>
    destruct (while_true fuel b 0 0 s) as [[r1 st1]|] eqn:Hloop; [|done];
    destruct (while_true_trace 100 fuel 0 0 s r1 st1 Hloop)
      as (k & rows & Hk & Hreq & Hsl & Hfiles & Hpd) end.
  cbn [requests sleeps files players_data] in Hreq, Hsl, Hfiles, Hpd.
  exists k, rows.
  destruct r1 as [[]|e]; apply (inj Some) in Hrun; injection Hrun as <- <-; cbn; done.
Qed.
End loop_effects.


Section paged_upstream.
Variable client : nat → nat → http_outcome.

Lemma short_page_pass limit offset total st d records rows fuel :
  body_of (client offset limit) = Some (PyDict d) →
  d !! "items" = Some (PyList records) →
  length records < limit →
  mapM extract_player_data records = Ok rows →
  ∃ st', while_true (S fuel) (loop_body client limit) offset total st = Some (Ok (), st')
    ∧ players_data st' = players_data st ++ rows
    ∧ requests st' = requests st ++ [(offset, limit)]
    ∧ sleeps st' = sleeps st
    ∧ files st' = files st.
Proof.
  intros Hb Hi Hlt Hrows. cbn [while_true].
  destruct records as [|p records].
  - rewrite (loop_body_no_items client limit offset total st d Hb).
    + eexists. split; [reflexivity|]. cbn. apply Ok_inj in Hrows as <-.
      by rewrite app_nil_r.
    + cbn. apply negb_true_iff, Nat.eqb_neq. intros Hs%map_size_empty_iff.
      rewrite Hs, lookup_empty in Hi. discriminate.
    + by rewrite Hi.
  - rewrite (loop_body_page client limit offset total st d (p :: records) rows) by done.
    apply Nat.ltb_lt in Hlt. rewrite Hlt.
    eexists. split; [reflexivity|]. done.
Qed.

Lemma paged_loop limit (pages : list (list pyval * list (gmap string pyval))) :
  ∀ offset total st fuel last_recs last_rows,
    0 < limit →
    (∀ i recs rows, pages !! i = Some (recs, rows) →
       serves client limit (offset + i * limit) recs rows ∧ limit ≤ length recs) →
    serves client limit (offset + length pages * limit) last_recs last_rows →
    length last_recs < limit →
    length pages < fuel →
    ∃ st', while_true fuel (loop_body client limit) offset total st = Some (Ok (), st')
      ∧ players_data st' = players_data st ++ concat (pages.*2) ++ last_rows
      ∧ requests st' = requests st ++ requests_from offset limit (S (length pages))
      ∧ sleeps st' = sleeps st + length pages
      ∧ files st' = files st.
Proof.
  induction pages as [|[recs rows] pages IH];
    intros offset total st fuel last_recs last_rows Hlimit Hpages Hlast Hshort Hfuel;
    (destruct fuel as [|fuel]; [cbn in Hfuel; lia|]).
  - destruct Hlast as (d & Hb & Hi & Hrows). cbn in Hb. rewrite Nat.add_0_r in Hb.
    destruct (short_page_pass limit offset total st d last_recs last_rows fuel)
      as (st' & Hrun & Hpd & Hreq & Hsl & Hfiles); try done.
    exists st'. rewrite requests_from_1. cbn. split_and!; try done. lia.
  - destruct (Hpages 0 recs rows eq_refl) as [(d & Hb & Hi & Hrows) Hfull].
    cbn in Hb. rewrite Nat.add_0_r in Hb.
    rewrite (full_page_continues client limit offset total st d recs rows) by done.
    match goal with |- context [while_true fuel ?b ?o ?t ?s] =>
      destruct (IH o t s fuel last_recs last_rows) as (st' & Hrun & Hpd & Hreq & Hsl & Hfiles)
    end; try done.
    + intros i recs' rows' Hi'.
      replace (offset + limit + i * limit) with (offset + S i * limit) by lia.
      by apply Hpages.
    + replace (offset + limit + length pages * limit)
        with (offset + length ((recs, rows) :: pages) * limit) by (cbn; lia). done.
    + cbn in Hfuel. lia.
    + exists st'. split; [done|]. cbn [players_data requests sleeps files] in *.
      rewrite requests_from_S. cbn [fmap list_fmap concat snd length].
      split_and!.
      * by rewrite Hpd, <- !app_assoc.
      * by rewrite Hreq, <- app_assoc.
      * rewrite Hsl. lia.
      * done.
Qed.

(** X2: against an upstream that serves full pages (at least 100 records each)
    and then a page with fewer than 100 records, [fetch_all_players]
    returns, given fuel for these passes, with the flattened records of all
    the pages in [players_data], page after page and in the order of each
    page; it has requested each page once, at offsets advancing by 100
    whatever the number of records a page held, and paused once after each
    full page. *)
Theorem rows_in_fetch_order
    (pages : list (list pyval * list (gmap string pyval)))
    (last_recs : list pyval) (last_rows : list (gmap string pyval))
    (fuel : nat) (st : state) :
  (∀ i recs rows, pages !! i = Some (recs, rows) →
     serves client 100 (i * 100) recs rows ∧ 100 ≤ length recs) →
  serves client 100 (length pages * 100) last_recs last_rows →
  length last_recs < 100 →
  length pages < fuel →
  ∃ st', fetch_all_players client fuel st = Some (Ok (), st')
    ∧ players_data st' = players_data st ++ concat (pages.*2) ++ last_rows
    ∧ requests st' = requests st ++ requests_from 0 100 (S (length pages))
    ∧ sleeps st' = sleeps st + length pages
    ∧ files st' = files st.
Proof.
  intros Hpages Hlast Hshort Hfuel. unfold fetch_all_players. cbn [print].
  match goal with |- context [while_true fuel ?b 0 0 ?s] =>
    destruct (paged_loop 100 pages 0 0 s fuel last_recs last_rows)
      as (st' & Hrun & Hpd & Hreq & Hsl & Hfiles) end; try done; [lia|].
  rewrite Hrun. eexists. split; [reflexivity|]. cbn. done.
Qed.

(** X3: the loop has no bound of its own: against an upstream that serves a
    full page at every offset, no amount of fuel lets
    [fetch_all_players] finish. *)
Theorem endless_upstream_never_finishes (fuel : nat) (st : state) :
  (∀ offset, ∃ recs rows, serves client 100 offset recs rows ∧ 100 ≤ length recs) →
  fetch_all_players client fuel st = None.
Proof.
  intros Hfull. unfold fetch_all_players. cbn [print].
  match goal with |- context [while_true fuel ?b 0 0 ?s] =>
    assert (Hloop : ∀ offset total s', while_true fuel b offset total s' = None);
      [|by rewrite Hloop] end.
  induction fuel as [|fuel IH]; intros offset total s'; [done|].
  destruct (Hfull offset) as (recs & rows & (d & Hb & Hi & Hrows) & Hlen).
  rewrite (full_page_continues client 100 offset total s' d recs rows) by (done || lia).
  apply IH.
Qed.
End paged_upstream.

Lemma three_pages_served :
  (∀ i recs rows,
     [(replicate 100 (PyDict ∅), replicate 100 (flat ∅));
      (replicate 100 (PyDict ∅), replicate 100 (flat ∅))] !! i = Some (recs, rows) →
     serves Samples.three_pages 100 (i * 100) recs rows ∧ 100 ≤ length recs)
  ∧ serves Samples.three_pages 100 (2 * 100)
      (replicate 37 (PyDict ∅)) (replicate 37 (flat ∅)).
Proof.
  assert (Hrow : extract_player_data (PyDict ∅) = Ok (flat ∅)).
  { apply extract_well_shaped. reflexivity. }
  split.
  - intros [|[|i]] recs rows Hi; [| |done].
    + change (Some (replicate 100 (PyDict ∅), replicate 100 (flat ∅)) = Some (recs, rows))
        in Hi.
      apply (inj Some) in Hi.
      pose proof (f_equal fst Hi) as H1. pose proof (f_equal snd Hi) as H2.
      cbn [fst snd] in H1, H2. subst recs rows.
      split; [|by rewrite length_replicate].
      eexists. split; [reflexivity|]. split; [reflexivity|].
      by apply mapM_extract_replicate.
    + change (Some (replicate 100 (PyDict ∅), replicate 100 (flat ∅)) = Some (recs, rows))
        in Hi.
      apply (inj Some) in Hi.
      pose proof (f_equal fst Hi) as H1. pose proof (f_equal snd Hi) as H2.
      cbn [fst snd] in H1, H2. subst recs rows.
      split; [|by rewrite length_replicate].
      eexists. split; [reflexivity|]. split; [reflexivity|].
      by apply mapM_extract_replicate.
  - eexists. split; [reflexivity|]. split; [reflexivity|].
    by apply mapM_extract_replicate.
Qed.

Lemma rows_in_fetch_order_witness :
  ∃ st', fetch_all_players Samples.three_pages 3 (init ∅) = Some (Ok (), st')
    ∧ players_data st' = replicate 100 (flat ∅) ++ replicate 100 (flat ∅)
                         ++ replicate 37 (flat ∅)
    ∧ requests st' = [(0, 100); (100, 100); (200, 100)]
    ∧ sleeps st' = 2.
Proof.
  destruct three_pages_served as [Hpages Hlast].
  destruct (rows_in_fetch_order Samples.three_pages _ _ _ 3 (init ∅) Hpages Hlast)
    as (st' & Hrun & Hpd & Hreq & Hsl & _).
  - rewrite length_replicate. lia.
  - cbn. lia.
  - exists st'. split; [exact Hrun|]. split; [|split; [exact Hreq|exact Hsl]].
    rewrite Hpd. cbn [init players_data fmap list_fmap concat snd app].
    by rewrite app_nil_r.
Defined.

Lemma endless_upstream_never_finishes_witness :
  (∀ offset, ∃ recs rows, serves Samples.endless 100 offset recs rows ∧ 100 ≤ length recs)
  ∧ fetch_all_players Samples.endless 1000 (init ∅) = None.
Proof.
  assert (H : ∀ offset, ∃ recs rows,
            serves Samples.endless 100 offset recs rows ∧ 100 ≤ length recs).
  { intros offset. exists (replicate 100 (PyDict ∅)), (replicate 100 (flat ∅)).
    split; [|by rewrite length_replicate].
    eexists. split; [reflexivity|]. split; [reflexivity|].
    apply mapM_extract_replicate, extract_well_shaped. reflexivity. }
  split; [exact H|].
  exact (endless_upstream_never_finishes Samples.endless 1000 (init ∅) H).
Defined.

Lemma three_pages_fetch :
  ∃ st', fetch_all_players Samples.three_pages 3 (init ∅) = Some (Ok (), st').
Proof.
  destruct three_pages_served as [Hpages Hlast].
  unfold fetch_all_players. cbn [print].
  match goal with |- context [while_true 3 ?b 0 0 ?s] =>
    destruct (paged_loop Samples.three_pages 100 _ 0 0 s 3 _ _ ltac:(lia) Hpages Hlast)
      as (st' & Hrun & _) end.
  - rewrite length_replicate. lia.
  - cbn. lia.
  - rewrite Hrun. eexists. reflexivity.
Qed.

Lemma fetch_requests_consecutive_offsets_witness :
  ∃ r st', fetch_all_players Samples.three_pages 3 (init ∅) = Some (r, st')
    ∧ ∃ k rows, 1 ≤ k ≤ 3
        ∧ requests st' = requests_from 0 100 k
        ∧ sleeps st' = k - 1
        ∧ files st' = ∅
        ∧ players_data st' = rows.
Proof.
  destruct three_pages_fetch as [st' Hrun].
  exists (Ok ()), st'. split; [exact Hrun|].
  exact (fetch_requests_consecutive_offsets Samples.three_pages 3 (init ∅) (Ok ()) st' Hrun).
Defined.

(** ** What ends a run early *)

Section early_ends.
Variable client : nat → nat → http_outcome.

Lemma for_each_extract_raises good bad rest rows e st :
  mapM extract_player_data good = Ok rows →
  extract_player_data bad = Raise e →
  for_each (good ++ bad :: rest) (λ player,
    player_data ← lift (extract_player_data player);
    append_player player_data) st
  = (Raise e, {| players_data := players_data st ++ rows; stdout := stdout st;
                 requests := requests st; sleeps := sleeps st; files := files st |}).
Proof.
  revert rows st. induction good as [|p good IH]; intros rows st Hgood Hbad.
  - apply Ok_inj in Hgood as <-. cbn [app for_each].
    rewrite bind_run, bind_run. unfold lift at 1. rewrite Hbad.
    rewrite app_nil_r. by destruct st.
  - cbn [mapM] in Hgood. destruct (extract_player_data p) as [row|] eqn:Hp; [|done].
    cbn [mbind result_bind] in Hgood.
    destruct (mapM extract_player_data good) as [rows'|] eqn:Hrows'; [|done].
    apply Ok_inj in Hgood as <-.
    cbn [app for_each]. rewrite bind_run, bind_run. unfold lift at 1. rewrite Hp.
    unfold append_player at 1. rewrite (IH rows') by done.
    cbn [players_data stdout requests sleeps files]. by rewrite <- app_assoc.
Qed.

(** A pass whose page holds a record on which the flattener raises. *)
Lemma bad_record_pass limit offset total st d good bad rest rows e :
  body_of (client offset limit) = Some (PyDict d) →
  d !! "items" = Some (PyList (good ++ bad :: rest)) →
  mapM extract_player_data good = Ok rows →
  extract_player_data bad = Raise e →
  loop_body client limit offset total st
  = (Raise e,
     {| players_data := players_data st ++ rows;
        stdout := stdout st ++ [FetchingPage offset];
        requests := requests st ++ [(offset, limit)];
        sleeps := sleeps st; files := files st |}).
Proof.
  intros Hb Hi Hgood Hbad.
  unfold loop_body. rewrite bind_run. cbn [print].
  rewrite bind_run, fetch_page_run by (by eapply body_no_escape).
  rewrite (body_decoded _ _ Hb).
  assert (Ht : truthy (PyDict d) = true).
  { cbn. apply negb_true_iff, Nat.eqb_neq. intros Hs%map_size_empty_iff.
    rewrite Hs, lookup_empty in Hi. discriminate. }
  rewrite Ht. cbn [negb]. rewrite (body_no_diagnostic _ _ _ Hb), app_nil_r.
  rewrite bind_run. unfold lift at 1. cbn [py_get]. rewrite Hi.
  change (default (PyList []) (Some (PyList (good ++ bad :: rest))))
    with (PyList (good ++ bad :: rest)).
  assert (Hti : truthy (PyList (good ++ bad :: rest)) = true) by (by destruct good).
  rewrite Hti. cbn [negb]. rewrite bind_run. unfold lift at 1. cbn [py_iter].
  rewrite bind_run, (for_each_extract_raises good bad rest rows e) by done.
  reflexivity.
Qed.

(** Full pages, then a page that holds such a record. *)
Lemma paged_loop_raises limit (pages : list (list pyval * list (gmap string pyval))) :
  ∀ offset total st fuel d good bad rest rows e,
    0 < limit →
    (∀ i recs rows', pages !! i = Some (recs, rows') →
       serves client limit (offset + i * limit) recs rows' ∧ limit ≤ length recs) →
    body_of (client (offset + length pages * limit) limit) = Some (PyDict d) →
    d !! "items" = Some (PyList (good ++ bad :: rest)) →
    mapM extract_player_data good = Ok rows →
    extract_player_data bad = Raise e →
    length pages < fuel →
    ∃ st', while_true fuel (loop_body client limit) offset total st = Some (Raise e, st')
      ∧ players_data st' = players_data st ++ concat (pages.*2) ++ rows
      ∧ requests st' = requests st ++ requests_from offset limit (S (length pages))
      ∧ files st' = files st
      ∧ last (stdout st') = Some (FetchingPage (offset + length pages * limit)).
Proof.
  induction pages as [|[recs rows0] pages IH];
    intros offset total st fuel d good bad rest rows e Hlimit Hpages Hb Hi Hgood Hbad Hfuel;
    (destruct fuel as [|fuel]; [cbn in Hfuel; lia|]).
  - cbn in Hb. rewrite Nat.add_0_r in Hb. cbn [while_true].
    rewrite (bad_record_pass limit offset total st d good bad rest rows e) by done.
    eexists. split; [reflexivity|]. cbn [players_data requests files stdout].
    rewrite requests_from_1, last_snoc. cbn. by rewrite Nat.add_0_r.
  - destruct (Hpages 0 recs rows0 eq_refl) as [(d0 & Hb0 & Hi0 & Hrows0) Hfull].
    cbn in Hb0. rewrite Nat.add_0_r in Hb0.
    rewrite (full_page_continues client limit offset total st d0 recs rows0) by done.
    match goal with |- context [while_true fuel ?b ?o ?t ?s] =>
      destruct (IH o t s fuel d good bad rest rows e)
        as (st' & Hrun & Hpd & Hreq & Hfiles & Hout)
    end; try done.
    + intros i recs' rows' Hi'.
      replace (offset + limit + i * limit) with (offset + S i * limit) by lia.
      by apply Hpages.
    + replace (offset + limit + length pages * limit)
        with (offset + length ((recs, rows0) :: pages) * limit) by (cbn; lia). done.
    + cbn in Hfuel. lia.
    + exists st'. split; [done|]. cbn [players_data requests sleeps files] in *.
      rewrite requests_from_S. cbn [fmap list_fmap concat snd length].
      split_and!.
      * by rewrite Hpd, <- !app_assoc.
      * by rewrite Hreq, <- app_assoc.
      * done.
      * rewrite Hout. f_equal. f_equal. cbn. lia.
Qed.

(** X4: a record on which the flattener raises aborts the whole run with that
    exception, on whatever page it comes: when the upstream serves any number
    of full pages of records that flatten and then a page that holds, after
    records that flatten, one on which the flattener raises, the rows of all
    the records before it stay in [players_data], the page it is on is the
    last one requested, and [save_to_csv] is not reached, so no file is
    written and the last line printed is that page's fetch message. *)
Theorem bad_record_aborts_run (fs : gmap string (list (list pyval))) (fuel : nat)
    (pages : list (list pyval * list (gmap string pyval)))
    d good bad rest rows e :
  (∀ i recs rows', pages !! i = Some (recs, rows') →
     serves client 100 (i * 100) recs rows' ∧ 100 ≤ length recs) →
  body_of (client (length pages * 100) 100) = Some (PyDict d) →
  d !! "items" = Some (PyList (good ++ bad :: rest)) →
  mapM extract_player_data good = Ok rows →
  extract_player_data bad = Raise e →
  length pages < fuel →
  ∃ st', main client fuel fs = Some (Raise e, st')
    ∧ players_data st' = concat (pages.*2) ++ rows
    ∧ requests st' = requests_from 0 100 (S (length pages))
    ∧ files st' = fs
    ∧ last (stdout st') = Some (FetchingPage (length pages * 100)).
Proof.
  intros Hpages Hb Hi Hgood Hbad Hfuel. unfold main, run, fetch_all_players, init.
  cbn [print players_data stdout requests sleeps files].
  match goal with |- context [while_true fuel ?b 0 0 ?s] =>
    destruct (paged_loop_raises 100 pages 0 0 s fuel d good bad rest rows e)
      as (st' & Hrun & Hpd & Hreq & Hfiles & Hout) end; try done; [lia|].
  rewrite Hrun. exists st'. split; [reflexivity|]. done.
Qed.

(** X5: a page that is fetched and decoded, is truthy, but is not an object
    (a non-empty array, a number, a string) is not taken for a failed
    fetch: looking up its [items] raises [AttributeError], which ends the
    run with nothing collected and nothing written. *)
Theorem non_object_body_raises (fs : gmap string (list (list pyval))) (fuel : nat) data :
  body_of (client 0 100) = Some data →
  truthy data = true →
  (∀ d, data ≠ PyDict d) →
  ∃ st', main client (S fuel) fs = Some (Raise AttributeError, st')
    ∧ players_data st' = []
    ∧ requests st' = [(0, 100)]
    ∧ files st' = fs.
Proof.
  intros Hb Ht Hnd. unfold main, run, fetch_all_players, init.
  cbn [print players_data stdout requests sleeps files while_true].
  unfold loop_body. rewrite bind_run. cbn [print].
  rewrite bind_run, fetch_page_run by (by eapply body_no_escape).
  rewrite (body_decoded _ _ Hb), Ht. cbn [negb].
  rewrite bind_run. unfold lift at 1.
  destruct data as [| | | | | |d]; try (eexists; split; [reflexivity|]; cbn; done).
  by destruct (Hnd d).
Qed.

(** X6: a page without records ends the loop as complete: when the decoded
    page is a non-empty object whose [items] is missing, empty or otherwise
    falsy, the loop stops after this request, appends nothing and prints
    that no more items were found, not that the fetch failed. *)
Theorem empty_page_ends_pagination limit offset total st d fuel :
  body_of (client offset limit) = Some (PyDict d) →
  d ≠ ∅ →
  truthy (default (PyList []) (d !! "items")) = false →
  ∃ st', while_true (S fuel) (loop_body client limit) offset total st = Some (Ok (), st')
    ∧ players_data st' = players_data st
    ∧ requests st' = requests st ++ [(offset, limit)]
    ∧ stdout st' = stdout st ++ [FetchingPage offset; NoMoreItems]
    ∧ sleeps st' = sleeps st ∧ files st' = files st.
Proof.
  intros Hb Hne Hi. cbn [while_true].
  rewrite (loop_body_no_items client limit offset total st d Hb); [| |done].
  - eexists. split; [reflexivity|]. cbn. done.
  - cbn. apply negb_true_iff, Nat.eqb_neq. by intros Hs%map_size_empty_iff.
Qed.
End early_ends.

Lemma spoiled_later_served :
  ∀ i recs rows,
    [(replicate 100 (PyDict ∅), replicate 100 (flat ∅))] !! i = Some (recs, rows) →
    serves Samples.spoiled_later 100 (i * 100) recs rows ∧ 100 ≤ length recs.
Proof.
  assert (Hrow : extract_player_data (PyDict ∅) = Ok (flat ∅)).
  { apply extract_well_shaped. reflexivity. }
  intros [|i] recs rows Hi; [|done].
  change (Some (replicate 100 (PyDict ∅), replicate 100 (flat ∅)) = Some (recs, rows)) in Hi.
  apply (inj Some) in Hi.
  pose proof (f_equal fst Hi) as H1. pose proof (f_equal snd Hi) as H2.
  cbn [fst snd] in H1, H2. subst recs rows.
  split; [|by rewrite length_replicate].
  eexists. split; [reflexivity|]. split; [reflexivity|].
  by apply mapM_extract_replicate.
Qed.

Lemma bad_record_aborts_run_witness :
  extract_player_data (PyInt 7) = Raise AttributeError
  ∧ (∃ st', main Samples.spoiled 1 ∅ = Some (Raise AttributeError, st')
       ∧ players_data st' = [flat ∅]
       ∧ requests st' = [(0, 100)]
       ∧ files st' = ∅)
  ∧ (∃ st', main Samples.spoiled_later 2 ∅ = Some (Raise AttributeError, st')
       ∧ length (players_data st') = 101
       ∧ requests st' = [(0, 100); (100, 100)]
       ∧ files st' = ∅
       ∧ last (stdout st') = Some (FetchingPage 100)).
Proof.
  assert (Hrow : mapM extract_player_data [PyDict ∅] = Ok [flat ∅]).
  { cbn [mapM]. rewrite extract_well_shaped by reflexivity. reflexivity. }
  split; [reflexivity|]. split.
  - destruct (bad_record_aborts_run Samples.spoiled ∅ 1 []
                {[ "items" := PyList [PyDict ∅; PyInt 7; PyDict ∅] ]}
                [PyDict ∅] (PyInt 7) [PyDict ∅] [flat ∅] AttributeError)
      as (st' & Hrun & Hpd & Hreq & Hfs & _).
    + intros i recs rows' Hi. discriminate Hi.
    + reflexivity.
    + reflexivity.
    + exact Hrow.
    + reflexivity.
    + cbn. lia.
    + exists st'. split; [exact Hrun|]. split; [exact Hpd|]. split; [exact Hreq|exact Hfs].
  - destruct (bad_record_aborts_run Samples.spoiled_later ∅ 2
                [(replicate 100 (PyDict ∅), replicate 100 (flat ∅))]
                {[ "items" := PyList [PyDict ∅; PyInt 7; PyDict ∅] ]}
                [PyDict ∅] (PyInt 7) [PyDict ∅] [flat ∅] AttributeError)
      as (st' & Hrun & Hpd & Hreq & Hfs & Hout).
    + exact spoiled_later_served.
    + reflexivity.
    + reflexivity.
    + exact Hrow.
    + reflexivity.
    + cbn. lia.
    + exists st'. split; [exact Hrun|].
      split; [rewrite Hpd; cbn [fmap list_fmap concat snd];
              by rewrite !length_app, length_replicate|].
      split; [exact Hreq|]. split; [exact Hfs|exact Hout].
Defined.

Lemma non_object_body_raises_witness :
  ∃ st', main Samples.array_body 1 ∅ = Some (Raise AttributeError, st')
    ∧ players_data st' = [] ∧ requests st' = [(0, 100)] ∧ files st' = ∅.
Proof.
  apply (non_object_body_raises Samples.array_body ∅ 0 (PyList [PyDict ∅])).
  - reflexivity.
  - reflexivity.
  - intros d. discriminate.
Defined.

Lemma empty_page_ends_pagination_witness :
  (∃ st', while_true 1 (loop_body Samples.no_items_key 100) 0 0 (init ∅) = Some (Ok (), st')
     ∧ players_data st' = []
     ∧ stdout st' = [FetchingPage 0; NoMoreItems])
  ∧ (∃ st', while_true 1 (loop_body Samples.no_records 100) 0 0 (init ∅) = Some (Ok (), st')
     ∧ players_data st' = []
     ∧ stdout st' = [FetchingPage 0; NoMoreItems]).
Proof.
  split.
  - destruct (empty_page_ends_pagination Samples.no_items_key 100 0 0 (init ∅)
                {[ "totalItems" := PyInt 0 ]} 0)
      as (st' & Hrun & Hpd & _ & Hout & _).
    + reflexivity.
    + intros H. apply (f_equal (lookup "totalItems")) in H. discriminate H.
    + reflexivity.
    + exists st'. split; [exact Hrun|]. split; [exact Hpd|exact Hout].
  - destruct (empty_page_ends_pagination Samples.no_records 100 0 0 (init ∅)
                {[ "items" := PyList [] ]} 0)
      as (st' & Hrun & Hpd & _ & Hout & _).
    + reflexivity.
    + intros H. apply (f_equal (lookup "items")) in H. discriminate H.
    + reflexivity.
    + exists st'. split; [exact Hrun|]. split; [exact Hpd|exact Hout].
Defined.

(** ** The whole run, end to end *)

Section end_to_end.
Variable client : nat → nat → http_outcome.

(** X7: against an upstream that serves full pages and then a short page, a
    run that collects at least one row, all of them rows that can be encoded
    as UTF-8, writes [eafc_players.csv] with the header of all the collected
    rows followed by one record per upstream record, in upstream order; a
    run that collects no row writes nothing. *)
Theorem main_saves_all_rows
    (pages : list (list pyval * list (gmap string pyval)))
    (last_recs : list pyval) (last_rows : list (gmap string pyval))
    (fuel : nat) (fs : gmap string (list (list pyval))) :
  (∀ i recs rows, pages !! i = Some (recs, rows) →
     serves client 100 (i * 100) recs rows ∧ 100 ≤ length recs) →
  serves client 100 (length pages * 100) last_recs last_rows →
  length last_recs < 100 →
  length pages < fuel →
  rows_encodable (concat (pages.*2) ++ last_rows) = true →
  ∃ st', main client fuel fs = Some (Ok (), st')
    ∧ players_data st' = concat (pages.*2) ++ last_rows
    ∧ (players_data st' ≠ [] →
         files st' !! "eafc_players.csv"
         = Some ((PyStr <$> header (players_data st'))
                 :: (record_of (header (players_data st')) <$> players_data st')))
    ∧ (players_data st' = [] → files st' = fs).
Proof.
  intros Hpages Hlast Hshort Hfuel Henc. unfold main, run, fetch_all_players, init.
  cbn [print players_data stdout requests sleeps files].
  match goal with |- context [while_true fuel ?b 0 0 ?s] =>
    destruct (paged_loop client 100 pages 0 0 s fuel last_recs last_rows)
      as (st1 & Hrun & Hpd & Hreq & Hsl & Hfiles) end; try done; [lia|].
  rewrite Hrun. cbn [print players_data stdout requests sleeps files] in *.
  match goal with |- context [save_to_csv _ ?s] => set (st2 := s) end.
  assert (Hpd2 : players_data st2 = concat (pages.*2) ++ last_rows) by exact Hpd.
  assert (Hfs2 : files st2 = fs) by exact Hfiles.
  destruct (decide (players_data st2 = [])) as [Hnil|Hne].
  - rewrite (save_to_csv_empty _ _ Hnil). eexists. split; [reflexivity|]. cbn.
    split; [done|]. split; [by intros []|done].
  - rewrite (save_to_csv_rows _ _ Hne) by (by rewrite Hpd2).
    eexists. split; [reflexivity|]. cbn [players_data files].
    split; [done|]. split; [|done].
    intros _. change (py_path "eafc_players.csv") with "eafc_players.csv".
    by rewrite lookup_insert_eq.
Qed.
End end_to_end.

Lemma rows_encodable_app rows1 rows2 :
  rows_encodable (rows1 ++ rows2) = rows_encodable rows1 && rows_encodable rows2.
Proof. apply forallb_app. Qed.

Lemma rows_encodable_replicate n row :
  row_encodable row = true → rows_encodable (replicate n row) = true.
Proof.
  intros H. induction n as [|n IH]; [done|].
  change (row_encodable row && rows_encodable (replicate n row) = true).
  by rewrite H, IH.
Qed.

Lemma three_pages_encodable :
  rows_encodable
    (concat ([(replicate 100 (PyDict ∅), replicate 100 (flat ∅));
              (replicate 100 (PyDict ∅), replicate 100 (flat ∅))].*2)
     ++ replicate 37 (flat ∅)) = true.
Proof.
  assert (Hrow : row_encodable (flat ∅) = true) by (vm_compute; reflexivity).
  cbn [fmap list_fmap concat snd]. rewrite !rows_encodable_app.
  rewrite (rows_encodable_replicate 100 _ Hrow), (rows_encodable_replicate 37 _ Hrow).
  reflexivity.
Qed.

Lemma main_saves_all_rows_witness :
  ∃ st', main Samples.three_pages 3 ∅ = Some (Ok (), st')
    ∧ length (players_data st') = 237
    ∧ (length <$> files st' !! "eafc_players.csv") = Some 238.
Proof.
  destruct three_pages_served as [Hpages Hlast].
  destruct (main_saves_all_rows Samples.three_pages _ _ _ 3 ∅ Hpages Hlast)
    as (st' & Hrun & Hpd & Hfile & _).
  - rewrite length_replicate. lia.
  - cbn. lia.
  - exact three_pages_encodable.
  - exists st'. split; [exact Hrun|].
    assert (Hlen : length (players_data st') = 237).
    { rewrite Hpd. cbn [fmap list_fmap concat snd].
      rewrite !length_app, !length_replicate. reflexivity. }
    split; [exact Hlen|].
    rewrite Hfile.
    + cbn [fmap option_fmap option_map length].
      by rewrite length_fmap, Hlen.
    + intros Hnil. rewrite Hnil in Hlen. discriminate Hlen.
Defined.

(** ** Further properties of the writer *)

(** X8: the header does not depend on the order of the rows, nor on how often a
    row occurs: row sets with the same columns get the same header. *)
Theorem header_depends_on_columns_only (rows rows' : list (gmap string pyval)) :
  (∀ c, (∃ row, row ∈ rows ∧ is_Some (row !! c))
        ↔ (∃ row, row ∈ rows' ∧ is_Some (row !! c))) →
  header rows = header rows'.
Proof.
  intros Hsame. apply strictly_sorted_unique; try apply header_sorted.
  intros c. by rewrite !header_elem.
Qed.

Lemma header_depends_on_columns_only_witness :
  (∀ c, (∃ row, row ∈ [Samples.row_pac; Samples.row_div] ∧ is_Some (row !! c))
        ↔ (∃ row, row ∈ [Samples.row_div; Samples.row_pac; Samples.row_div]
                  ∧ is_Some (row !! c)))
  ∧ header [Samples.row_pac; Samples.row_div]
    = header [Samples.row_div; Samples.row_pac; Samples.row_div].
Proof.
  assert (H : ∀ c,
    (∃ row, row ∈ [Samples.row_pac; Samples.row_div] ∧ is_Some (row !! c))
    ↔ (∃ row, row ∈ [Samples.row_div; Samples.row_pac; Samples.row_div]
              ∧ is_Some (row !! c))).
  { intros c. split; intros (row & Hin & Hc); exists row; (split; [|exact Hc]).
    - apply elem_of_cons in Hin. destruct Hin as [->|Hin].
      + apply elem_of_cons. right. apply elem_of_cons. by left.
      + apply elem_of_cons in Hin. destruct Hin as [->|Hin].
        * apply elem_of_cons. by left.
        * by apply elem_of_nil in Hin.
    - apply elem_of_cons in Hin. destruct Hin as [->|Hin].
      + apply elem_of_cons. right. apply elem_of_cons. by left.
      + apply elem_of_cons in Hin. destruct Hin as [->|Hin].
        * apply elem_of_cons. by left.
        * apply elem_of_cons in Hin. destruct Hin as [->|Hin].
          -- apply elem_of_cons. right. apply elem_of_cons. by left.
          -- by apply elem_of_nil in Hin. }
  split; [exact H|]. exact (header_depends_on_columns_only _ _ H).
Defined.

(** X9: the file [save_to_csv] writes, for rows that can be encoded as
    UTF-8, is a rectangular table: it has one record more than there are
    rows, and every record has as many fields as the header; the field of
    row [i] under the header's column [c] is the row's value for [c]
    whenever the row has that column. *)
Theorem saved_table_rectangular (filename : string) (st : state) :
  players_data st ≠ [] →
  rows_encodable (players_data st) = true →
  ∃ st' table,
    save_to_csv filename st = (Ok (), st')
    ∧ files st' !! py_path filename = Some table
    ∧ length table = S (length (players_data st))
    ∧ (∀ record, record ∈ table → length record = length (header (players_data st)))
    ∧ (∀ i j row c v,
         players_data st !! i = Some row →
         header (players_data st) !! j = Some c →
         row !! c = Some v →
         ∃ record, table !! S i = Some record ∧ record !! j = Some v).
Proof.
  intros Hne Henc. eexists _, _. split; [by apply save_to_csv_rows|].
  cbn [files]. split; [apply lookup_insert_eq|]. unfold Csv.table.
  split_and!.
  - cbn. by rewrite length_fmap.
  - intros record [->|Hin]%elem_of_cons.
    + by rewrite length_fmap.
    + apply list_elem_of_fmap in Hin as (row & -> & _). unfold record_of.
      by rewrite length_fmap.
  - intros i j row c v Hi Hj Hv. eexists. split.
    + change (((PyStr <$> header (players_data st))
               :: (record_of (header (players_data st)) <$> players_data st)) !! S i)
        with ((record_of (header (players_data st)) <$> players_data st) !! i).
      rewrite list_lookup_fmap, Hi. reflexivity.
    + unfold record_of. rewrite list_lookup_fmap, Hj. cbn. by rewrite Hv.
Qed.

(** X10: [save_to_csv] replaces what the file it opens held: for rows that
    can be encoded as UTF-8, the content of that file after the save is the
    same from every state that holds these rows, whatever the files held
    before, so saving the same rows again leaves the same content; and two
    file names that [Path] normalises to the same path are saved alike. *)
Theorem save_to_csv_replaces_file (filename : string) (st : state) :
  players_data st ≠ [] →
  rows_encodable (players_data st) = true →
  ∃ st', save_to_csv filename st = (Ok (), st')
    ∧ (∀ st0,
         players_data st0 = players_data st →
         ∃ st0', save_to_csv filename st0 = (Ok (), st0')
           ∧ files st0' !! py_path filename = files st' !! py_path filename)
    ∧ (∃ st'', save_to_csv filename st' = (Ok (), st'')
         ∧ files st'' !! py_path filename = files st' !! py_path filename)
    ∧ (∀ filename', py_path filename' = py_path filename →
         save_to_csv filename' st = save_to_csv filename st).
Proof.
  intros Hne Henc. eexists. split; [by apply save_to_csv_rows|].
  cbn [files players_data]. split_and!.
  - intros st0 Hpd. eexists.
    split; [apply save_to_csv_rows; by rewrite Hpd|].
    cbn [files]. by rewrite Hpd, !lookup_insert_eq.
  - eexists. split; [by apply save_to_csv_rows|]. cbn [files players_data].
    by rewrite !lookup_insert_eq.
  - intros filename' Hpath. unfold save_to_csv. by rewrite Hpath.
Qed.

Lemma saved_table_rectangular_witness :
  players_data Samples.two_rows ≠ []
  ∧ rows_encodable (players_data Samples.two_rows) = true
  ∧ ∃ st' table,
      save_to_csv "out.csv" Samples.two_rows = (Ok (), st')
      ∧ files st' !! "out.csv" = Some table
      ∧ length table = 3
      ∧ (∀ record, record ∈ table →
           length record = length (header (players_data Samples.two_rows))).
Proof.
  split; [discriminate|]. split; [reflexivity|].
  destruct (saved_table_rectangular "out.csv" Samples.two_rows ltac:(discriminate) eq_refl)
    as (st' & table & Hrun & Htable & Hlen & Hrect & _).
  exists st', table. split; [exact Hrun|]. split; [exact Htable|].
  split; [exact Hlen|exact Hrect].
Defined.

Lemma save_to_csv_replaces_file_witness :
  players_data Samples.two_rows ≠ []
  ∧ rows_encodable (players_data Samples.two_rows) = true
  ∧ py_path "./out.csv" = py_path "out.csv"
  ∧ ∃ st', save_to_csv "out.csv" Samples.two_rows = (Ok (), st')
      ∧ save_to_csv "./out.csv" Samples.two_rows = (Ok (), st')
      ∧ ∃ st'', save_to_csv "out.csv" st' = (Ok (), st'')
          ∧ files st'' !! "out.csv" = files st' !! "out.csv".
Proof.
  split; [discriminate|]. split; [reflexivity|]. split; [reflexivity|].
  destruct (save_to_csv_replaces_file "out.csv" Samples.two_rows ltac:(discriminate) eq_refl)
    as (st' & Hrun & _ & Hagain & Halias).
  exists st'. split; [exact Hrun|].
  split; [by rewrite (Halias "./out.csv" eq_refl)|exact Hagain].
Defined.




Lemma header_unencodable rows :
  forallb encodable (PyStr <$> header rows) = false → rows_encodable rows = false.
Proof.
  intros H. apply not_true_is_false. intros Henc.
  by rewrite (header_encodable rows Henc) in H.
Qed.




(** ** Further properties of the flattener *)

(** X11: the flattener reads a record through seventeen keys only: two records
    that agree on these give the same result, be it a row or an exception;
    so a field under any other key yields no column and cannot make the
    flattener raise. *)
Theorem flatten_reads_known_keys_only (d d' : gmap string pyval) :
  (∀ key, key ∈ known_keys → d !! key = d' !! key) →
  extract_player_data (PyDict d) = extract_player_data (PyDict d').
Proof.
  intros H. unfold extract_player_data. cbn [py_get].
  assert (Hk : ∀ key, In key known_keys → d !! key = d' !! key).
  { intros key Hin. apply H. by apply list_elem_of_In. }
  rewrite (Hk "id"), (Hk "overallRating"), (Hk "firstName"), (Hk "lastName"),
    (Hk "commonName"), (Hk "skillMoves"), (Hk "weakFootAbility"),
    (Hk "preferredFoot"), (Hk "leagueName"), (Hk "avatarUrl"), (Hk "shieldUrl"),
    (Hk "alternatePositions"), (Hk "playerAbilities"), (Hk "nationality"),
    (Hk "team"), (Hk "position"), (Hk "stats")
    by (cbn; tauto).
  reflexivity.
Qed.

Lemma flatten_reads_known_keys_only_witness :
  (∀ key, key ∈ known_keys → Samples.haaland_born !! key = Samples.haaland !! key)
  ∧ extract_player_data (PyDict Samples.haaland_born)
    = extract_player_data (PyDict Samples.haaland).
Proof.
  assert (H : ∀ key, key ∈ known_keys →
            Samples.haaland_born !! key = Samples.haaland !! key).
  { intros key Hin. unfold Samples.haaland_born. apply lookup_insert_ne.
    intros <-. apply list_elem_of_In in Hin. cbn in Hin.
    repeat (destruct Hin as [Hin|Hin]; [discriminate Hin|]). exact Hin. }
  split; [exact H|]. exact (flatten_reads_known_keys_only _ _ H).
Defined.

(** *** When the flattener returns *)

Lemma mapM_str_of_ok vals : is_ok (mapM py_str_of vals) = forallb is_str vals.
Proof.
  induction vals as [|v vals IH]; [done|]. cbn [mapM forallb].
  destruct v; cbn; try done.
  destruct (mapM py_str_of vals); cbn in *; by rewrite <- IH.
Qed.

Lemma joined_ok vals : is_ok (joined vals) = forallb is_str vals.
Proof.
  unfold joined, py_join. destruct vals as [|v vals]; [done|].
  cbn [truthy length Nat.eqb negb]. rewrite <- mapM_str_of_ok.
  by destruct (mapM py_str_of (v :: vals)).
Qed.

(** Over a list: the lookups succeed when the truthy elements are objects,
    and the join succeeds when moreover what they hold under [key] is a
    string. *)
Lemma list_lookups_ok key l :
  match mapM (λ elem, py_get elem key (PyStr "")) (List.filter truthy l) with
  | Ok vals => forallb is_str vals = forallb (elem_ok [key]) l
  | Raise _ => forallb (elem_ok [key]) l = false
  end.
Proof.
  induction l as [|e l IH]; [done|]. cbn [List.filter forallb].
  unfold elem_ok at 1 3. destruct (truthy e) eqn:Ht; cbn [negb orb].
  - destruct e as [| | | | | |m]; try done. cbn [mapM py_get mbind result_bind forallb].
    rewrite andb_true_r.
    destruct (mapM _ (List.filter truthy l)) as [vals|]; cbn [mbind result_bind].
    + change (forallb is_str (default (PyStr "") (m !! key) :: vals)
              = is_str (default (PyStr "") (m !! key)) && forallb (elem_ok [key]) l).
      cbn [forallb]. by rewrite IH.
    + rewrite IH. apply andb_false_r.
  - exact IH.
Qed.

Lemma keys_lookups_ok key (keys : list string) :
  match mapM (λ elem, py_get elem key (PyStr "")) (List.filter truthy (PyStr <$> keys)) with
  | Ok vals => vals = [] ∧ forallb (λ k, negb (truthy (PyStr k))) keys = true
  | Raise _ => forallb (λ k, negb (truthy (PyStr k))) keys = false
  end.
Proof.
  induction keys as [|k keys IH]; [done|]. cbn [fmap list_fmap List.filter forallb].
  destruct (truthy (PyStr k)) eqn:Hk; cbn [negb andb].
  - done.
  - exact IH.
Qed.

Lemma chars_lookups_raise key s :
  s ≠ EmptyString →
  ∃ e, mapM (λ elem, py_get elem key (PyStr ""))
         (List.filter truthy ((λ c, PyStr (String c EmptyString)) <$> list_ascii_of_string s))
       = Raise e.
Proof. destruct s as [|c s]; [done|]. intros _. by eexists. Qed.

(** For one attribute of one list field: extracting and joining returns
    exactly on the values [key_ok] admits, and returns a string. *)
Lemma list_stage key v :
  match comprehension (py_or v (PyList [])) key with
  | Ok vals => is_ok (joined vals) = key_ok key v
  | Raise _ => key_ok key v = false
  end.
Proof.
  unfold key_ok, py_or. destruct (truthy v) eqn:Ht; cbn [negb orb]; [|done].
  unfold comprehension. destruct v as [| |n|bits|s|l|m]; try done.
  - cbn [py_iter mbind result_bind].
    destruct (chars_lookups_raise key s) as [e ->]; [|done].
    intros ->. discriminate Ht.
  - cbn [py_iter mbind result_bind]. pose proof (list_lookups_ok key l) as H.
    destruct (mapM _ (List.filter truthy l)); [|done]. by rewrite joined_ok.
  - cbn [py_iter mbind result_bind].
    pose proof (keys_lookups_ok key (map_to_list m).*1) as H.
    destruct (mapM _ (List.filter truthy _)); [|done]. by destruct H as [-> ->].
Qed.

Lemma object_stage v key :
  is_ok (py_get (py_or v (PyDict ∅)) key (PyStr "")) = object_field_ok v.
Proof.
  unfold object_field_ok, py_or. destruct (truthy v); [|done]. by destruct v.
Qed.

Lemma items_stage v : is_ok (py_items (py_or v (PyDict ∅))) = object_field_ok v.
Proof.
  unfold object_field_ok, py_or. destruct (truthy v); [|done]. by destruct v.
Qed.

Lemma list_field_key_ok keys key v :
  key ∈ keys → list_field_ok keys v = true → key_ok key v = true.
Proof.
  intros Hin. unfold list_field_ok, key_ok.
  destruct (truthy v); cbn [negb orb]; [|done].
  destruct v as [| | | | |l|]; try done.
  rewrite !forallb_forall. intros Hall e He. specialize (Hall e He).
  unfold elem_ok in *. destruct (truthy e); cbn [negb orb] in *; [|done].
  destruct e as [| | | | | |m]; try done. cbn [forallb]. rewrite andb_true_r.
  rewrite forallb_forall in Hall. apply Hall. by apply list_elem_of_In.
Qed.

(** X12: the flattener returns a row exactly on the records [flattens] admits,
    and on these only; on anything that is not an object it raises
    [AttributeError] at its first lookup. *)
Theorem flatten_returns_iff :
  (∀ d, is_ok (extract_player_data (PyDict d)) = flattens d)
  ∧ (∀ d, well_shaped d = true → flattens d = true)
  ∧ (∀ player, (∀ d, player ≠ PyDict d) →
       extract_player_data player = Raise AttributeError).
Proof.
  split_and!.
  - intros d. unfold extract_player_data, flattens.
    cbn [py_get mbind result_bind fmap result_fmap].
    fold (field d "alternatePositions") (field d "playerAbilities")
         (field d "nationality") (field d "team") (field d "position") (field d "stats").
    rewrite <- !andb_assoc.
    (* alternate positions *)
    pose proof (list_stage "shortLabel" (field d "alternatePositions")) as Halt.
    destruct (comprehension _ "shortLabel") as [alt|]; cbn [mbind result_bind];
      [|by rewrite Halt].
    rewrite <- Halt. destruct (joined alt) as [alt_joined|];
      cbn [mbind result_bind is_ok andb]; [|done].
    (* player abilities *)
    pose proof (list_stage "label" (field d "playerAbilities")) as Hlab.
    pose proof (list_stage "imageUrl" (field d "playerAbilities")) as Himg.
    destruct (comprehension _ "label") as [labels|]; cbn [mbind result_bind];
      [|by rewrite Hlab].
    destruct (comprehension _ "imageUrl") as [images|]; cbn [mbind result_bind];
      [|rewrite Himg; by destruct (key_ok "label" _)].
    rewrite <- Hlab, <- Himg.
    destruct (joined labels) as [labels_joined|];
      cbn [mbind result_bind is_ok andb]; [|done].
    destruct (joined images) as [images_joined|];
      cbn [mbind result_bind is_ok andb]; [|done].
    (* nationality *)
    pose proof (object_stage (field d "nationality") "label") as Hn1.
    pose proof (object_stage (field d "nationality") "imageUrl") as Hn2.
    destruct (py_get (py_or (field d "nationality") _) "label" _);
      cbn [mbind result_bind is_ok] in *; rewrite <- Hn1 in *; [|done].
    destruct (py_get (py_or (field d "nationality") _) "imageUrl" _);
      cbn [mbind result_bind is_ok andb] in *; [|done].
    (* team *)
    pose proof (object_stage (field d "team") "label") as Ht1.
    pose proof (object_stage (field d "team") "imageUrl") as Ht2.
    destruct (py_get (py_or (field d "team") _) "label" _);
      cbn [mbind result_bind is_ok] in *; rewrite <- Ht1 in *; [|done].
    destruct (py_get (py_or (field d "team") _) "imageUrl" _);
      cbn [mbind result_bind is_ok andb] in *; [|done].
    (* position and stats *)
    rewrite <- (object_stage (field d "position") "shortLabel").
    destruct (py_get (py_or (field d "position") _) "shortLabel" _);
      cbn [mbind result_bind is_ok andb]; [|done].
    rewrite <- items_stage.
    by destruct (py_items _).
  - intros d. unfold well_shaped, flattens.
    rewrite !andb_true_iff. intros [[[[[Halt Hab] Hnat] Hteam] Hpos] Hstats].
    split_and!; try done.
    + apply (list_field_key_ok ["shortLabel"]); [apply elem_of_cons; by left|done].
    + apply (list_field_key_ok ["label"; "imageUrl"]); [apply elem_of_cons; by left|done].
    + apply (list_field_key_ok ["label"; "imageUrl"]); [|done].
      apply elem_of_cons. right. apply elem_of_cons. by left.
  - intros player Hnd. destruct player; try reflexivity. by destruct (Hnd d).
Qed.

Lemma flatten_returns_iff_witness :
  well_shaped Samples.haaland = true
  ∧ flattens Samples.haaland = true
  ∧ is_ok (extract_player_data (PyDict Samples.haaland)) = true
  ∧ is_ok (extract_player_data (PyDict Samples.bare_nationality)) = false
  ∧ is_ok (extract_player_data (PyDict Samples.keyed_positions)) = true
  ∧ extract_player_data (PyInt 7) = Raise AttributeError.
Proof.
  destruct flatten_returns_iff as (Hiff & Hws & Hnd).
  split; [reflexivity|]. split; [exact (Hws Samples.haaland eq_refl)|].
  split; [rewrite Hiff; exact (Hws Samples.haaland eq_refl)|].
  split; [rewrite Hiff; reflexivity|]. split; [rewrite Hiff; reflexivity|].
  apply Hnd. intros d. discriminate.
Defined.

(** *** The order of the stats *)

Lemma add_stat_lookup_stat k0 v0 (base : gmap string pyval) k :
  add_stat k0 v0 base !! ("stat_" +:+ k)
  = if decide (k = k0) then
      match stat_value v0 with Some v => Some v | None => base !! ("stat_" +:+ k) end
    else base !! ("stat_" +:+ k).
Proof.
  unfold add_stat, stat_value. case_decide as Hk.
  - subst k. destruct v0 as [| | | | | |sd]; try done.
    destruct (sd !! "value"); [by rewrite lookup_insert_eq|done].
  - destruct v0 as [| | | | | |sd]; try done.
    destruct (sd !! "value"); [|done].
    rewrite lookup_insert_ne; [done|]. intros [= ?]. by destruct Hk.
Qed.

Lemma add_stat_lookup_other k0 v0 (base : gmap string pyval) c :
  (∀ k, c ≠ "stat_" +:+ k) → add_stat k0 v0 base !! c = base !! c.
Proof.
  intros Hc. unfold add_stat. destruct v0 as [| | | | | |sd]; try done.
  destruct (sd !! "value"); [|done]. rewrite lookup_insert_ne; [done|].
  intros <-. by apply (Hc k0).
Qed.

Lemma add_stats_in_order_lookup items :
  NoDup items.*1 →
  ∀ base : gmap string pyval,
    (∀ k, add_stats_in_order items base !! ("stat_" +:+ k)
          = match (list_to_map items : gmap string pyval) !! k ≫= stat_value with
            | Some v => Some v
            | None => base !! ("stat_" +:+ k)
            end)
    ∧ (∀ c, (∀ k, c ≠ "stat_" +:+ k) → add_stats_in_order items base !! c = base !! c).
Proof.
  unfold add_stats_in_order.
  induction items as [|[k0 v0] items IH]; intros Hnd base.
  - split; [intros k; by rewrite list_to_map_nil, lookup_empty|done].
  - cbn [fmap list_fmap fst] in Hnd. apply NoDup_cons in Hnd as [Hk0 Hnd].
    cbn [foldl fst snd]. destruct (IH Hnd (add_stat k0 v0 base)) as [IHs IHo]. split.
    + intros k. rewrite IHs, add_stat_lookup_stat, list_to_map_cons.
      case_decide as Hk.
      * subst k. rewrite lookup_insert_eq.
        rewrite (not_elem_of_list_to_map_1 (M:=gmap string)) by done. reflexivity.
      * by rewrite lookup_insert_ne.
    + intros c Hc. rewrite IHo by done. by apply add_stat_lookup_other.
Qed.

(** X13: the stat columns do not depend on the order in which the upstream
    lists the stats: running the loop over the entries in any order of
    insertion gives the row that the loop gives over the mapping. *)
Theorem stats_order_irrelevant (items items' : list (string * pyval))
    (base : gmap string pyval) :
  NoDup items.*1 →
  items ≡ₚ items' →
  add_stats_in_order items base = map_fold add_stat base (list_to_map items)
  ∧ add_stats_in_order items base = add_stats_in_order items' base.
Proof.
  intros Hnd Hperm.
  assert (Hfold : ∀ its : list (string * pyval), NoDup its.*1 →
            add_stats_in_order its base = map_fold add_stat base (list_to_map its)).
  { intros its Hits. apply map_eq. intros c.
    destruct (add_stats_in_order_lookup its Hits base) as [Hs Ho].
    destruct (fold_add_stat_lookup base (list_to_map its)) as [Fs Fo].
    destruct (stat_prefix_dec c) as [[k ->]|Hc].
    - by rewrite Hs, Fs.
    - by rewrite Ho, Fo. }
  split; [by apply Hfold|].
  assert (Hnd' : NoDup items'.*1) by (by rewrite <- Hperm).
  rewrite !Hfold by done. f_equal.
  apply map_eq. intros k. apply option_eq. intros v.
  rewrite <- !elem_of_list_to_map by done. by rewrite Hperm.
Qed.

Lemma stats_order_irrelevant_witness :
  NoDup [("pac", PyDict {[ "value" := PyInt 88 ]}); ("sho", PyInt 1)].*1
  ∧ add_stats_in_order [("pac", PyDict {[ "value" := PyInt 88 ]}); ("sho", PyInt 1)] ∅
    = add_stats_in_order [("sho", PyInt 1); ("pac", PyDict {[ "value" := PyInt 88 ]})] ∅.
Proof.
  assert (Hnd : NoDup [("pac", PyDict {[ "value" := PyInt 88 ]}); ("sho", PyInt 1)].*1).
  { cbn. repeat constructor.
    - intros Hin. apply elem_of_cons in Hin. destruct Hin as [Hin|Hin]; [discriminate Hin|].
      by apply elem_of_nil in Hin.
    - intros Hin. by apply elem_of_nil in Hin. }
  split; [exact Hnd|].
  apply (stats_order_irrelevant _ _ ∅ Hnd). apply Permutation_swap.
Defined.

(** ** Flattener and writer together *)

(** X14: the header of a file of flattened rows: when the rows are the rows of
    well-shaped records, the header holds the nineteen fixed columns and,
    besides them, exactly the columns [stat_<key>] of the stat keys that
    carry a [value] in at least one record. *)
Theorem header_of_flattened_rows (ds : list (gmap string pyval)) :
  ds ≠ [] →
  Forall (λ d, well_shaped d = true) ds →
  ∃ rows, mapM extract_player_data (PyDict <$> ds) = Ok rows
    ∧ length rows = length ds
    ∧ ∀ c, c ∈ header rows
           ↔ c ∈ static_columns
             ∨ ∃ d k, d ∈ ds ∧ c = "stat_" +:+ k
                 ∧ is_Some (sub_of (field d "stats") !! k ≫= stat_value).
Proof.
  intros Hne Hall. exists (flat <$> ds).
  assert (Hrows : mapM extract_player_data (PyDict <$> ds) = Ok (flat <$> ds)).
  { clear Hne. induction Hall as [|d ds Hd _ IH]; [done|].
    cbn [fmap list_fmap mapM]. rewrite (extract_well_shaped d Hd).
    cbn [mbind result_bind]. fold (fmap (M:=list) PyDict ds). rewrite IH. done. }
  split; [exact Hrows|]. split; [by rewrite length_fmap|].
  intros c. rewrite header_elem. split.
  - intros (row & Hrow & Hc). apply list_elem_of_fmap in Hrow as (d & -> & Hd).
    apply flat_is_Some in Hc as [Hc|(k & -> & Hk)]; [by left|].
    right. by exists d, k.
  - intros [Hc|(d & k & Hd & -> & Hk)].
    + destruct ds as [|d ds]; [done|]. exists (flat d).
      split; [apply elem_of_cons; by left|]. apply flat_is_Some. by left.
    + exists (flat d). split; [apply list_elem_of_fmap; by exists d|].
      apply flat_is_Some. right. by exists k.
Qed.

Lemma header_of_flattened_rows_witness :
  [Samples.haaland; Samples.winger] ≠ []
  ∧ Forall (λ d, well_shaped d = true) [Samples.haaland; Samples.winger]
  ∧ ∃ rows, mapM extract_player_data (PyDict <$> [Samples.haaland; Samples.winger]) = Ok rows
      ∧ length rows = 2
      ∧ "stat_pac" ∈ header rows ∧ "team_label" ∈ header rows.
Proof.
  assert (Hall : Forall (λ d, well_shaped d = true) [Samples.haaland; Samples.winger]).
  { repeat constructor. }
  split; [discriminate|]. split; [exact Hall|].
  destruct (header_of_flattened_rows [Samples.haaland; Samples.winger] ltac:(discriminate) Hall)
    as (rows & Hrows & Hlen & Hhdr).
  exists rows. split; [exact Hrows|]. split; [exact Hlen|]. split.
  - apply Hhdr. right. exists Samples.haaland, "pac".
    split; [apply elem_of_cons; by left|]. split; [reflexivity|].
    exists (PyInt 88). vm_compute. reflexivity.
  - apply Hhdr. left. apply list_elem_of_In. cbn. tauto.
Defined.
